(** * AddCarForm: the admin form that creates a car listing

    A shallow embedding of the React component [AddCarForm]
    (add-car-form.jsx): its zod schema [carFormSchema], its event
    handlers ([onSubmit], [onMultiImagesDrop], [onAiImageDrop],
    [removeImage], the preview remove button) and its effects on the
    results of the two server actions.

    Conventions.
    - A JavaScript string is a [string]; one [ascii] stands for one code
      unit below 256.
    - A JavaScript number that holds an integer is a [Z].  [parseInt]
      returns [None] for NaN.  Rounding to a double is not modelled: it is
      monotone, so it does not change a comparison with the small
      integers the schema compares with.  The value of a number and its
      printed form are those of the built-ins for a safe integer
      ([JS.isSafeInteger]); statements about them are made in that
      range.
    - React state is a record; a handler is a function from the rendered
      state to the next one.  Notifications, navigations and calls of the
      server actions are logged in the state, oldest first. *)

From Stdlib Require Import QArith ZArith List String Ascii Bool Lia.
From Stdlib Require Import Decimal DecimalString DecimalPos DecimalZ.
From Stdlib Require Import Permutation.
Import ListNotations.

#[local] Open Scope string_scope.
#[local] Open Scope Z_scope.

(* ================================================================= *)
(** ** The JavaScript built-ins the component calls *)

Module JS.

(** Code unit of a character. *)
Definition code (c : ascii) : Z := Z.of_N (N_of_ascii c).

(** StrWhiteSpaceChar, restricted to code units below 256: TAB, LF, VT,
    FF, CR, SP and NBSP. *)
Definition isWhiteSpace (c : ascii) : bool :=
  let n := code c in
  ((9 <=? n) && (n <=? 13)) || (n =? 32) || (n =? 160).

(** Value of a character as a digit: 0-9, then a-z and A-Z for 10-35. *)
Definition digitValue (c : ascii) : option Z :=
  let n := code c in
  if (48 <=? n) && (n <=? 57) then Some (n - 48)
  else if (97 <=? n) && (n <=? 122) then Some (n - 87)
  else if (65 <=? n) && (n <=? 90) then Some (n - 55)
  else None.

(** A digit of radix [R], or [None]. *)
Definition radixDigit (R : Z) (c : ascii) : option Z :=
  match digitValue c with
  | Some d => if d <? R then Some d else None
  | None => None
  end.

Fixpoint trimStart (s : string) : string :=
  match s with
  | String c r => if isWhiteSpace c then trimStart r else s
  | EmptyString => s
  end.

(** Steps 4-6 of parseInt: the sign. *)
Definition stripSign (s : string) : Z * string :=
  match s with
  | String "-" r => (-1, r)
  | String "+" r => (1, r)
  | _ => (1, s)
  end.

(** Steps 8-11 of parseInt called without a radix: a leading 0x or 0X
    selects radix 16, anything else radix 10. *)
Definition stripPrefix (s : string) : Z * string :=
  match s with
  | String "0" (String "x" r) => (16, r)
  | String "0" (String "X" r) => (16, r)
  | _ => (10, s)
  end.

(** Steps 12-15: the value of the longest prefix of radix-[R] digits,
    [acc] being the value read so far ([None]: no digit yet). *)
Fixpoint digits (R : Z) (s : string) (acc : option Z) : option Z :=
  match s with
  | String c r =>
      match radixDigit R c with
      | Some d =>
          digits R r (Some (R * match acc with Some a => a | None => 0 end + d))
      | None => acc
      end
  | EmptyString => acc
  end.

(** Steps 8-15 together: the number the string denotes once the sign is
    gone. *)
Definition magnitude (s : string) : option Z :=
  let '(R, s') := stripPrefix s in digits R s' None.

(** [parseInt(s)], one argument.  [None] is NaN.  The result is the
    integer the digits denote; the built-in returns the nearest double,
    which is that integer when it is a safe one. *)
Definition parseInt (input : string) : option Z :=
  let '(sign, s) := stripSign (trimStart input) in
  match magnitude s with
  | Some mathInt => Some (sign * mathInt)
  | None => None
  end.

(** [n.toString()] and [`${n}`] for an integer [n]: decimal digits, a
    leading minus sign for a negative one.  The built-in prints this
    numeral for a safe integer; beyond, it prints the shortest digits
    of the double, in exponent form from 1e21 on. *)
Definition toString (n : Z) : string :=
  NilZero.string_of_int (Z.to_int n).

(** [Number.MAX_SAFE_INTEGER] and [Number.isSafeInteger(n)] for an
    integer [n] *)
Definition MAX_SAFE_INTEGER : Z := 2 ^ 53 - 1.

Definition isSafeInteger (n : Z) : bool := Z.abs n <=? MAX_SAFE_INTEGER.

(** [s.length] *)
Definition strlen (s : string) : Z := Z.of_nat (String.length s).

End JS.

(* ================================================================= *)
(** ** The form values and [carFormSchema] *)

(** The names [setValue], [register] and the schema address a text field
    by.  The thirteenth field, [featured], holds a boolean and is set
    through [setFeatured]. *)
Module Field.
Inductive name :=
| make | model | year | price | mileage | color | fuelType
| transmission | bodyType | seats | description | status.

Definition eqb (f g : name) : bool :=
  match f, g with
  | make, make | model, model | year, year | price, price
  | mileage, mileage | color, color | fuelType, fuelType
  | transmission, transmission | bodyType, bodyType | seats, seats
  | description, description | status, status => true
  | _, _ => false
  end.
End Field.

(** The values object of react-hook-form (the CarDraft of the design
    note). *)
Module Draft.
Record t := {
  make : string;
  model : string;
  year : string;
  price : string;
  mileage : string;
  color : string;
  fuelType : string;
  transmission : string;
  bodyType : string;
  seats : string;
  description : string;
  status : string;
  featured : bool;
}.

(** [defaultValues] of [useForm] *)
Definition defaultValues : t :=
  {| make := ""; model := ""; year := ""; price := ""; mileage := "";
     color := ""; fuelType := ""; transmission := ""; bodyType := "";
     seats := ""; description := ""; status := "AVAILABLE";
     featured := false |}.

(** [getValues(name)] *)
Definition get (f : Field.name) (d : t) : string :=
  match f with
  | Field.make => make d
  | Field.model => model d
  | Field.year => year d
  | Field.price => price d
  | Field.mileage => mileage d
  | Field.color => color d
  | Field.fuelType => fuelType d
  | Field.transmission => transmission d
  | Field.bodyType => bodyType d
  | Field.seats => seats d
  | Field.description => description d
  | Field.status => status d
  end.

(** [setValue(name, value)]: one field is overwritten.  No validation is
    triggered ([shouldValidate] is not passed). *)
Definition setValue (f : Field.name) (v : string) (d : t) : t :=
  let pick g := if Field.eqb f g then v else get g d in
  {| make := pick Field.make;
     model := pick Field.model;
     year := pick Field.year;
     price := pick Field.price;
     mileage := pick Field.mileage;
     color := pick Field.color;
     fuelType := pick Field.fuelType;
     transmission := pick Field.transmission;
     bodyType := pick Field.bodyType;
     seats := pick Field.seats;
     description := pick Field.description;
     status := pick Field.status;
     featured := featured d |}.

(** [setValue("featured", checked)] *)
Definition setFeatured (b : bool) (d : t) : t :=
  {| make := make d; model := model d; year := year d; price := price d;
     mileage := mileage d; color := color d; fuelType := fuelType d;
     transmission := transmission d; bodyType := bodyType d;
     seats := seats d; description := description d; status := status d;
     featured := b |}.
End Draft.

Module Schema.

(** The message of a validation issue: the one the schema passes to the
    check, or zod's own when the schema passes none. *)
Inductive ErrorMessage :=
| Message (text : string)
| ZodDefault.

Definition Check := string -> option ErrorMessage.

(** [z.string().min(n, message)] *)
Definition min (n : Z) (message : string) : Check :=
  fun val => if JS.strlen val <? n then Some (Message message) else None.

(** [z.string().refine(check, message)] *)
Definition refine (check : string -> bool) (message : string) : Check :=
  fun val => if check val then None else Some (Message message).

(** [z.string().optional()] *)
Definition optional : Check := fun _ => None.

(** [z.enum(options)] *)
Definition enum (options : list string) : Check :=
  fun val =>
    if existsb (String.eqb val) options then None else Some ZodDefault.

(** The callback of the year refinement.  [currentYear] is
    [new Date().getFullYear()], read at each call. *)
Definition yearRefinement (currentYear : Z) (val : string) : bool :=
  match JS.parseInt val with
  | Some year => (1900 <=? year) && (year <=? currentYear + 1)
  | None => false
  end.

(** [z.string().refine(.., "Valid year required")], the schema of the key
    [year] *)
Definition yearSchema (currentYear : Z) : Check :=
  refine (yearRefinement currentYear) "Valid year required".

(** The three statuses of [z.enum] *)
Definition carStatuses : list string := ["AVAILABLE"; "UNAVAILABLE"; "SOLD"].

(** [carFormSchema], key by key and in the order of the source.
    [featured: z.boolean().default(false)] accepts every boolean. *)
Definition carFormSchema (currentYear : Z) : list (Field.name * Check) :=
  [ (Field.make, min 1 "Make is required");
    (Field.model, min 1 "Model is required");
    (Field.year, yearSchema currentYear);
    (Field.price, min 1 "Price is required");
    (Field.mileage, min 1 "Mileage is required");
    (Field.color, min 1 "Color is required");
    (Field.fuelType, min 1 "Fuel type is required");
    (Field.transmission, min 1 "Transmission is required");
    (Field.bodyType, min 1 "Body type is required");
    (Field.seats, optional);
    (Field.description,
      min 10 "Description must be at least 10 characters");
    (Field.status, enum carStatuses) ].

Definition Errors := list (Field.name * ErrorMessage).

(** The issues of one key. *)
Definition checkField (d : Draft.t) (entry : Field.name * Check) : Errors :=
  match snd entry (Draft.get (fst entry) d) with
  | Some m => [(fst entry, m)]
  | None => []
  end.

(** What [zodResolver(carFormSchema)] reports for the values [d]: the
    issues in key order, none when the values are accepted. *)
Definition validate (currentYear : Z) (d : Draft.t) : Errors :=
  flat_map (checkField d) (carFormSchema currentYear).

(** [errors.name]: the message shown under the field. *)
Fixpoint errorOf (f : Field.name) (errs : Errors) : option ErrorMessage :=
  match errs with
  | (g, m) :: rest => if Field.eqb f g then Some m else errorOf f rest
  | [] => None
  end.

End Schema.

(* ================================================================= *)
(** ** The component *)

(** A dropped file: its name, its size in bytes, and the data URL a
    [FileReader] delivers as [e.target.result] once [readAsDataURL] has
    read it. *)
Module File.
Record t := {
  name : string;
  size : Z;
  dataURL : string;
}.
End File.

(** [data] of a successful extraction (external interface of the design
    note): text for every field but [year] and [confidence], which are
    numbers. *)
Module Details.
Record t := {
  make : string;
  model : string;
  year : Z;
  color : string;
  bodyType : string;
  fuelType : string;
  price : string;
  mileage : string;
  transmission : string;
  description : string;
  confidence : Q;
}.
End Details.

Module Form.

(** What [processCarImageWithAI] resolves to. *)
Record AiResponse := {
  ai_success : bool;
  ai_data : option Details.t;
}.

(** What [addCar] resolves to. *)
Record AddCarResponse := {
  success : bool;
}.

(** A thrown [Error]; [message] is the empty string when none was given. *)
Record Error := {
  message : string;
}.

(** [parseFloat(s)], kept as the application itself: floating-point
    values are not computed. *)
Inductive Float :=
| parseFloat (s : string).

(** [carData] of [onSubmit]: the spread values with four keys replaced. *)
Record CarData := {
  data : Draft.t;
  year : option Z;
  price : Float;
  mileage : option Z;
  seats : option (option Z);   (* [None]: null *)
}.

Record AddCarRequest := {
  carData : CarData;
  images : list string;
}.

(** The description line of the extraction notification, a template
    literal kept with its holes: year, make, model and the confidence
    that [Math.round(confidence * 100)] turns into a percentage. *)
Inductive Description :=
| Detected (year : Z) (make model : string) (confidence : Q).

Inductive Toast :=
| toast_error (message : string)
| toast_success (message : string) (description : option Description).

(** Modelled from the spec: the hook [useFetch] of [@/hooks/use-fetch]
    is not among the sources.  The design note makes each call
    single-shot, without timeout or retry, and makes the caller
    responsible for surfacing its terminal outcome; the component reads
    [data], [loading], [error] and [fn] from the hook.  So [fn] starts
    the call and raises [loading]; when the call settles, [data] holds
    the response it returned, or [error] what it threw, and [loading]
    falls.  The hook itself notifies nobody. *)
Record Fetch (R : Type) := {
  fetch_data : option R;
  fetch_loading : bool;
  fetch_error : option Error;
}.
Arguments fetch_data {R}.
Arguments fetch_loading {R}.
Arguments fetch_error {R}.

Inductive Outcome (R : Type) :=
| resolved (response : R)
| rejected (error : Error).
Arguments resolved {R}.
Arguments rejected {R}.

Definition fetch_init {R} : Fetch R :=
  {| fetch_data := None; fetch_loading := false; fetch_error := None |}.

Definition fetch_start {R} (h : Fetch R) : Fetch R :=
  {| fetch_data := fetch_data h; fetch_loading := true;
     fetch_error := fetch_error h |}.

Definition fetch_settle {R} (o : Outcome R) (h : Fetch R) : Fetch R :=
  match o with
  | resolved r =>
      {| fetch_data := Some r; fetch_loading := false;
         fetch_error := fetch_error h |}
  | rejected e =>
      {| fetch_data := fetch_data h; fetch_loading := false;
         fetch_error := Some e |}
  end.

Record State := {
  values : Draft.t;  (* [useForm]: the values *)
  errors : Schema.Errors;  (* [formState.errors] *)
  activeTab : string;
  uploadedImages : list string;
  imageError : string;
  imagePreview : option string;
  uploadedAiImage : option File.t;
  processImage : Fetch AiResponse;  (* [useFetch(processCarImageWithAI)] *)
  addCar : Fetch AddCarResponse;  (* [useFetch(addCar)] *)
  toasts : list Toast;  (* log of [toast.error] and [toast.success] *)
  pushes : list string;  (* log of [router.push] *)
  processImageCalls : list File.t;  (* log of the calls of [processCarImageWithAI] *)
  addCarCalls : list AddCarRequest;  (* log of the calls of [addCar] *)
}.

Definition setValues (v : Draft.t) (s : State) : State :=
  {| values := v; errors := errors s; activeTab := activeTab s;
     uploadedImages := uploadedImages s; imageError := imageError s;
     imagePreview := imagePreview s; uploadedAiImage := uploadedAiImage s;
     processImage := processImage s; addCar := addCar s; toasts := toasts
     s; pushes := pushes s; processImageCalls := processImageCalls s;
     addCarCalls := addCarCalls s |}.

Definition setErrors (v : Schema.Errors) (s : State) : State :=
  {| values := values s; errors := v; activeTab := activeTab s;
     uploadedImages := uploadedImages s; imageError := imageError s;
     imagePreview := imagePreview s; uploadedAiImage := uploadedAiImage s;
     processImage := processImage s; addCar := addCar s; toasts := toasts
     s; pushes := pushes s; processImageCalls := processImageCalls s;
     addCarCalls := addCarCalls s |}.

Definition setActiveTab (v : string) (s : State) : State :=
  {| values := values s; errors := errors s; activeTab := v;
     uploadedImages := uploadedImages s; imageError := imageError s;
     imagePreview := imagePreview s; uploadedAiImage := uploadedAiImage s;
     processImage := processImage s; addCar := addCar s; toasts := toasts
     s; pushes := pushes s; processImageCalls := processImageCalls s;
     addCarCalls := addCarCalls s |}.

Definition setUploadedImages (v : list string) (s : State) : State :=
  {| values := values s; errors := errors s; activeTab := activeTab s;
     uploadedImages := v; imageError := imageError s; imagePreview :=
     imagePreview s; uploadedAiImage := uploadedAiImage s; processImage :=
     processImage s; addCar := addCar s; toasts := toasts s; pushes :=
     pushes s; processImageCalls := processImageCalls s; addCarCalls :=
     addCarCalls s |}.

Definition setImageError (v : string) (s : State) : State :=
  {| values := values s; errors := errors s; activeTab := activeTab s;
     uploadedImages := uploadedImages s; imageError := v; imagePreview :=
     imagePreview s; uploadedAiImage := uploadedAiImage s; processImage :=
     processImage s; addCar := addCar s; toasts := toasts s; pushes :=
     pushes s; processImageCalls := processImageCalls s; addCarCalls :=
     addCarCalls s |}.

Definition setImagePreview (v : option string) (s : State) : State :=
  {| values := values s; errors := errors s; activeTab := activeTab s;
     uploadedImages := uploadedImages s; imageError := imageError s;
     imagePreview := v; uploadedAiImage := uploadedAiImage s; processImage
     := processImage s; addCar := addCar s; toasts := toasts s; pushes :=
     pushes s; processImageCalls := processImageCalls s; addCarCalls :=
     addCarCalls s |}.

Definition setUploadedAiImage (v : option File.t) (s : State) : State :=
  {| values := values s; errors := errors s; activeTab := activeTab s;
     uploadedImages := uploadedImages s; imageError := imageError s;
     imagePreview := imagePreview s; uploadedAiImage := v; processImage :=
     processImage s; addCar := addCar s; toasts := toasts s; pushes :=
     pushes s; processImageCalls := processImageCalls s; addCarCalls :=
     addCarCalls s |}.

Definition setProcessImage (v : Fetch AiResponse) (s : State) : State :=
  {| values := values s; errors := errors s; activeTab := activeTab s;
     uploadedImages := uploadedImages s; imageError := imageError s;
     imagePreview := imagePreview s; uploadedAiImage := uploadedAiImage s;
     processImage := v; addCar := addCar s; toasts := toasts s; pushes :=
     pushes s; processImageCalls := processImageCalls s; addCarCalls :=
     addCarCalls s |}.

Definition setAddCar (v : Fetch AddCarResponse) (s : State) : State :=
  {| values := values s; errors := errors s; activeTab := activeTab s;
     uploadedImages := uploadedImages s; imageError := imageError s;
     imagePreview := imagePreview s; uploadedAiImage := uploadedAiImage s;
     processImage := processImage s; addCar := v; toasts := toasts s;
     pushes := pushes s; processImageCalls := processImageCalls s;
     addCarCalls := addCarCalls s |}.

Definition setToasts (v : list Toast) (s : State) : State :=
  {| values := values s; errors := errors s; activeTab := activeTab s;
     uploadedImages := uploadedImages s; imageError := imageError s;
     imagePreview := imagePreview s; uploadedAiImage := uploadedAiImage s;
     processImage := processImage s; addCar := addCar s; toasts := v;
     pushes := pushes s; processImageCalls := processImageCalls s;
     addCarCalls := addCarCalls s |}.

Definition setPushes (v : list string) (s : State) : State :=
  {| values := values s; errors := errors s; activeTab := activeTab s;
     uploadedImages := uploadedImages s; imageError := imageError s;
     imagePreview := imagePreview s; uploadedAiImage := uploadedAiImage s;
     processImage := processImage s; addCar := addCar s; toasts := toasts
     s; pushes := v; processImageCalls := processImageCalls s; addCarCalls
     := addCarCalls s |}.

Definition setProcessImageCalls (v : list File.t) (s : State) : State :=
  {| values := values s; errors := errors s; activeTab := activeTab s;
     uploadedImages := uploadedImages s; imageError := imageError s;
     imagePreview := imagePreview s; uploadedAiImage := uploadedAiImage s;
     processImage := processImage s; addCar := addCar s; toasts := toasts
     s; pushes := pushes s; processImageCalls := v; addCarCalls :=
     addCarCalls s |}.

Definition setAddCarCalls (v : list AddCarRequest) (s : State) : State :=
  {| values := values s; errors := errors s; activeTab := activeTab s;
     uploadedImages := uploadedImages s; imageError := imageError s;
     imagePreview := imagePreview s; uploadedAiImage := uploadedAiImage s;
     processImage := processImage s; addCar := addCar s; toasts := toasts
     s; pushes := pushes s; processImageCalls := processImageCalls s;
     addCarCalls := v |}.

(** The state of the first render. *)
Definition initial : State :=
  {| values := Draft.defaultValues; errors := []; activeTab := "manual";
     uploadedImages := []; imageError := ""; imagePreview := None;
     uploadedAiImage := None; processImage := fetch_init;
     addCar := fetch_init; toasts := []; pushes := [];
     processImageCalls := []; addCarCalls := [] |}.

(** [toast.error(..)], [toast.success(..)] and [router.push(..)] *)
Definition toast (t : Toast) (s : State) : State :=
  setToasts (toasts s ++ [t]) s.

Definition router_push (path : string) (s : State) : State :=
  setPushes (pushes s ++ [path]) s.

(** [setValue(name, value)] on the form of the component *)
Definition setValue (f : Field.name) (v : string) (s : State) : State :=
  setValues (Draft.setValue f v (values s)) s.

(** [array.length] *)
Definition len {A} (l : list A) : Z := Z.of_nat (List.length l).

(** *** Extraction *)

(** [fn] of [useFetch(processCarImageWithAI)] *)
Definition processImageFn (file : File.t) (s : State) : State :=
  setProcessImageCalls (processImageCalls s ++ [file])
    (setProcessImage (fetch_start (processImage s)) s).

Definition processWithAI (s : State) : State :=
  match uploadedAiImage s with
  | None => toast (toast_error "Please upload an image first") s
  | Some file => processImageFn file s
  end.

(** The effect on [processImageError].  [m || fallback] takes the
    fallback for the empty message. *)
Definition useEffect_processImageError (s : State) : State :=
  match fetch_error (processImage s) with
  | Some e =>
      toast (toast_error
               (if String.eqb (message e) "" then "Failed to process car image"
                else message e)) s
  | None => s
  end.

(** The effect on [processImageResult]. *)
Definition useEffect_processImageResult (s : State) : State :=
  match fetch_data (processImage s) with
  | Some {| ai_success := true; ai_data := Some carDetails |} =>
      let s := setValue Field.make (Details.make carDetails) s in
      let s := setValue Field.model (Details.model carDetails) s in
      let s := setValue Field.year (JS.toString (Details.year carDetails)) s in
      let s := setValue Field.color (Details.color carDetails) s in
      let s := setValue Field.bodyType (Details.bodyType carDetails) s in
      let s := setValue Field.fuelType (Details.fuelType carDetails) s in
      let s := setValue Field.price (Details.price carDetails) s in
      let s := setValue Field.mileage (Details.mileage carDetails) s in
      let s :=
        setValue Field.transmission (Details.transmission carDetails) s in
      let s :=
        setValue Field.description (Details.description carDetails) s in
      let s :=
        toast (toast_success "Successfully extracted car details"
                 (Some (Detected (Details.year carDetails)
                          (Details.make carDetails)
                          (Details.model carDetails)
                          (Details.confidence carDetails)))) s in
      setActiveTab "manual" s
  | _ => s
  end.

(** The extraction call settles: the hook records the outcome and the
    effect whose dependency changed runs. *)
Definition processImage_settles (o : Outcome AiResponse) (s : State) : State :=
  let s := setProcessImage (fetch_settle o (processImage s)) s in
  match o with
  | resolved _ => useEffect_processImageResult s
  | rejected _ => useEffect_processImageError s
  end.

(** *** Submission *)

(** [fn] of [useFetch(addCar)] *)
Definition addCarFn (request : AddCarRequest) (s : State) : State :=
  setAddCarCalls (addCarCalls s ++ [request])
    (setAddCar (fetch_start (addCar s)) s).

(** The effect on [addCarResult]. *)
Definition useEffect_addCarResult (s : State) : State :=
  match fetch_data (addCar s) with
  | Some {| success := true |} =>
      router_push "/admin/cars"
        (toast (toast_success "Car added successfully" None) s)
  | _ => s
  end.

(** The create call settles.  [error] of this hook is not read by the
    component, so no effect depends on it. *)
Definition addCar_settles (o : Outcome AddCarResponse) (s : State) : State :=
  let s := setAddCar (fetch_settle o (addCar s)) s in
  match o with
  | resolved _ => useEffect_addCarResult s
  | rejected _ => s
  end.

Definition onSubmit (data : Draft.t) (s : State) : State :=
  if len (uploadedImages s) =? 0 then
    setImageError "Please upload at least one image" s
  else
    let carData :=
      {| data := data;
         year := JS.parseInt (Draft.year data);
         price := parseFloat (Draft.price data);
         mileage := JS.parseInt (Draft.mileage data);
         seats := if String.eqb (Draft.seats data) "" then None
                  else Some (JS.parseInt (Draft.seats data)) |} in
    addCarFn {| carData := carData; images := uploadedImages s |} s.

(** [handleSubmit(onSubmit)] of react-hook-form: the resolver runs on the
    values; [onSubmit] is called only when it reports no issue. *)
Definition handleSubmit (currentYear : Z) (s : State) : State :=
  match Schema.validate currentYear (values s) with
  | [] => onSubmit (values s) (setErrors [] s)
  | errs => setErrors errs s
  end.

(** *** Images *)

Definition maxSize : Z := 5 * 1024 * 1024.

(** The [filter] of [onMultiImagesDrop]; its callback notifies for each
    file it drops. *)
Fixpoint filterValid (acceptedFiles : list File.t) (s : State)
  : list File.t * State :=
  match acceptedFiles with
  | [] => ([], s)
  | file :: rest =>
      if File.size file >? maxSize then
        filterValid rest
          (toast (toast_error
                    (File.name file
                       ++ " exceeds 5MB limit and will be skipped")) s)
      else
        let (validFiles, s') := filterValid rest s in
        (file :: validFiles, s')
  end.

(** What one call of [onMultiImagesDrop] shares with its readers:
    [validFiles] and the array [newImages]. *)
Record Batch := {
  validFiles : list File.t;
  newImages : list string;
}.

(** The call itself, up to the start of the reads.  [None]: no read was
    started. *)
Definition onMultiImagesDrop (acceptedFiles : list File.t) (s : State)
  : option Batch * State :=
  let (validFiles, s) := filterValid acceptedFiles s in
  if len validFiles =? 0 then (None, s)
  else (Some {| validFiles := validFiles; newImages := [] |}, s).

(** [reader.onload] of a batch, [result] being [e.target.result]. *)
Definition reader_onload (result : string) (b : Batch) (s : State)
  : Batch * State :=
  let newImages := (newImages b ++ [result])%list in
  let b := {| validFiles := validFiles b; newImages := newImages |} in
  if len newImages =? len (validFiles b) then
    let s := setUploadedImages (uploadedImages s ++ newImages) s in
    let s := setImageError "" s in
    let s :=
      toast (toast_success
               ("Uploaded " ++ JS.toString (len (validFiles b))
                  ++ " images successfully") None) s in
    (b, s)
  else (b, s).

(** The reads of a batch complete one after the other, in the order
    [completed]. *)
Fixpoint readAll (completed : list File.t) (b : Batch) (s : State)
  : Batch * State :=
  match completed with
  | [] => (b, s)
  | file :: rest =>
      let (b, s) := reader_onload (File.dataURL file) b s in
      readAll rest b s
  end.

(** The reads of two batches complete interleaved.  Each [onload]
    belongs to one call of [onMultiImagesDrop] and pushes to the
    [newImages] of that call; [true] marks a read of the first batch. *)
Fixpoint readBoth (completed : list (bool * File.t)) (b1 b2 : Batch)
  (s : State) : Batch * Batch * State :=
  match completed with
  | [] => (b1, b2, s)
  | (true, file) :: rest =>
      let (b1, s) := reader_onload (File.dataURL file) b1 s in
      readBoth rest b1 b2 s
  | (false, file) :: rest =>
      let (b2, s) := reader_onload (File.dataURL file) b2 s in
      readBoth rest b1 b2 s
  end.

(** A drop followed by the completion of its reads. *)
Definition dropAndRead (acceptedFiles completed : list File.t) (s : State)
  : State :=
  match onMultiImagesDrop acceptedFiles s with
  | (Some b, s) => snd (readAll completed b s)
  | (None, s) => s
  end.

(** [onAiImageDrop], up to the start of the read.  [Some file]: the read
    of [file] was started. *)
Definition onAiImageDrop (acceptedFiles : list File.t) (s : State)
  : option File.t * State :=
  match acceptedFiles with
  | [] => (None, s)
  | file :: _ =>
      if File.size file >? maxSize then
        (None, toast (toast_error "Image exceeds 5MB limit") s)
      else
        (Some file,
         toast (toast_success "Image uploaded for AI processing" None)
           (setUploadedAiImage (Some file) s))
  end.

(** [reader.onload] of [onAiImageDrop] *)
Definition aiReader_onload (result : string) (s : State) : State :=
  setUploadedImages (uploadedImages s ++ [result])
    (setImagePreview (Some result) s).

(** A drop on the extraction tab followed by the completion of its
    read, when one was started. *)
Definition aiDropAndRead (acceptedFiles : list File.t) (s : State) : State :=
  match onAiImageDrop acceptedFiles s with
  | (Some file, s) => aiReader_onload (File.dataURL file) s
  | (None, s) => s
  end.

(** [prev.filter((_, index) => index !== indexToRemove)], [index] being
    the position of the head of [prev]. *)
Fixpoint filterIndex (indexToRemove index : nat) (prev : list string)
  : list string :=
  match prev with
  | [] => []
  | image :: rest =>
      if negb (Nat.eqb index indexToRemove) then
        image :: filterIndex indexToRemove (S index) rest
      else filterIndex indexToRemove (S index) rest
  end.

Definition removeImage (indexToRemove : nat) (s : State) : State :=
  let s' :=
    setUploadedImages (filterIndex indexToRemove 0 (uploadedImages s)) s in
  if len (uploadedImages s) - 1 =? 0 then
    setImageError "Please upload at least one image" s'
  else s'.

(** [img !== imagePreview], [imagePreview] being null or a string *)
Definition differs (img : string) (imagePreview : option string) : bool :=
  match imagePreview with
  | Some p => negb (String.eqb img p)
  | None => true
  end.

(** [onClick] of the remove button of the extraction preview *)
Definition removePreview (s : State) : State :=
  let s' := setImagePreview None s in
  let s' := setUploadedAiImage None s' in
  setUploadedImages
    (filter (fun img => differs img (imagePreview s)) (uploadedImages s')) s'.

End Form.

(* ================================================================= *)
(** ** Vocabulary of the statements *)

Module Spec.

(** A decimal digit, 0 to 9. *)
Definition isDecimalDigit (c : ascii) : bool :=
  match JS.radixDigit 10 c with
  | Some _ => true
  | None => false
  end.

Definition headIsDigit (s : string) : bool :=
  match s with
  | String c _ => isDecimalDigit c
  | EmptyString => false
  end.

(** The longest run of decimal digits a string starts with, and what
    follows it. *)
Fixpoint leadingDigits (s : string) : string :=
  match s with
  | String c r => if isDecimalDigit c then String c (leadingDigits r) else ""
  | EmptyString => ""
  end.

Fixpoint afterDigits (s : string) : string :=
  match s with
  | String c r => if isDecimalDigit c then afterDigits r else s
  | EmptyString => ""
  end.

(** The integer a string of decimal digits denotes, read by the
    standard library's decimal numbers; [None] when a character is not
    a digit. *)
Definition decimalValue (ds : string) : option Z :=
  option_map Z.of_uint (NilEmpty.uint_of_string ds).

(** The eight fields the schema requires to be non-empty, and the
    message each one shows when it is empty. *)
Definition required : list Field.name :=
  [ Field.make; Field.model; Field.price; Field.mileage; Field.color;
    Field.fuelType; Field.transmission; Field.bodyType ].

Definition requiredMessage (f : Field.name) : string :=
  match f with
  | Field.make => "Make is required"
  | Field.model => "Model is required"
  | Field.price => "Price is required"
  | Field.mileage => "Mileage is required"
  | Field.color => "Color is required"
  | Field.fuelType => "Fuel type is required"
  | Field.transmission => "Transmission is required"
  | Field.bodyType => "Body type is required"
  | _ => ""
  end.

(** Every field but [f] holds a value the schema accepts: the other
    required fields are not empty, the year passes its check, the
    description has ten characters or more and the status is one of the
    three. *)
Definition othersValid (currentYear : Z) (f : Field.name) (d : Draft.t)
  : Prop :=
  (forall g, In g required -> g <> f -> Draft.get g d <> "")
  /\ Schema.yearRefinement currentYear (Draft.year d) = true
  /\ 10 <= JS.strlen (Draft.description d)
  /\ In (Draft.status d) Schema.carStatuses.

(** A draft the schema accepts: the eight required fields are not
    empty, the year passes its check, the description has ten
    characters or more and the status is one of the three. *)
Definition acceptable (currentYear : Z) (d : Draft.t) : Prop :=
  (forall g, In g required -> Draft.get g d <> "")
  /\ Schema.yearRefinement currentYear (Draft.year d) = true
  /\ 10 <= JS.strlen (Draft.description d)
  /\ In (Draft.status d) Schema.carStatuses.

(** A file over the limit of 5 MiB, and the notification it gets. *)
Definition oversize (file : File.t) : bool :=
  5 * 1024 * 1024 <? File.size file.

Definition conforming (file : File.t) : bool := negb (oversize file).

Definition warning (file : File.t) : Form.Toast :=
  Form.toast_error
    (File.name file ++ " exceeds 5MB limit and will be skipped").

Definition uploaded (n : nat) : Form.Toast :=
  Form.toast_success
    ("Uploaded " ++ JS.toString (Z.of_nat n) ++ " images successfully") None.

(** The state the last [onload] of a batch of [n] files leaves, [images]
    being the payloads in the order the reads completed. *)
Definition completes (n : nat) (images : list string) (s : Form.State)
  : Form.State :=
  Form.toast (uploaded n)
    (Form.setImageError ""
       (Form.setUploadedImages (Form.uploadedImages s ++ images) s)).

Definition atLeastOneImage : string := "Please upload at least one image".

(** A draft the schema accepts in 2025. *)
Definition sampleDraft : Draft.t :=
  {| Draft.make := "Toyota"; Draft.model := "Camry"; Draft.year := "2022";
     Draft.price := "25000"; Draft.mileage := "15000";
     Draft.color := "Red"; Draft.fuelType := "Petrol";
     Draft.transmission := "Automatic"; Draft.bodyType := "Sedan";
     Draft.seats := "5"; Draft.description := "A well kept sedan.";
     Draft.status := "AVAILABLE"; Draft.featured := false |}.

(** The payloads of the reads of one of two interleaved batches, in
    the order they completed. *)
Definition readsOf (first : bool) (completed : list (bool * File.t))
  : list File.t :=
  map snd (filter (fun e => Bool.eqb (fst e) first) completed).

Definition payloadsOf (first : bool) (completed : list (bool * File.t))
  : list string :=
  map File.dataURL (readsOf first completed).

(** What a batch with [acc] already read contributes once the reads
    [payloads] have completed: all its payloads when they fill the batch
    of [n] files, nothing before. *)
Definition contribution (n : nat) (acc payloads : list string)
  : list string :=
  match payloads with
  | [] => []
  | _ =>
      if Nat.eqb (List.length acc + List.length payloads) n
      then (acc ++ payloads)%list else []
  end.

(** The success notification that goes with a contribution. *)
Definition notice (n : nat) (acc payloads : list string)
  : list Form.Toast :=
  match payloads with
  | [] => []
  | _ =>
      if Nat.eqb (List.length acc + List.length payloads) n
      then [uploaded n] else []
  end.

(** What [parseInt] returned is a number the model holds exactly: NaN
    or a safe integer. *)
Definition exactNumber (n : option Z) : Prop :=
  match n with
  | Some v => JS.isSafeInteger v = true
  | None => True
  end.

(** A state with that draft and one uploaded image. *)
Definition sampleState : Form.State :=
  Form.setUploadedImages ["data:image/png;base64,AAAA"]
    (Form.setValues sampleDraft Form.initial).

(** The text [toast.error] shows for a failed extraction. *)
Definition extractionErrorText (e : Form.Error) : string :=
  if String.eqb (Form.message e) "" then "Failed to process car image"
  else Form.message e.

(** The draft a successful extraction leaves. *)
Definition extracted (cd : Details.t) (d : Draft.t) : Draft.t :=
  {| Draft.make := Details.make cd;
     Draft.model := Details.model cd;
     Draft.year := JS.toString (Details.year cd);
     Draft.price := Details.price cd;
     Draft.mileage := Details.mileage cd;
     Draft.color := Details.color cd;
     Draft.fuelType := Details.fuelType cd;
     Draft.transmission := Details.transmission cd;
     Draft.bodyType := Details.bodyType cd;
     Draft.seats := Draft.seats d;
     Draft.description := Details.description cd;
     Draft.status := Draft.status d;
     Draft.featured := Draft.featured d |}.

(** Extraction data that fills the form completely: a year of
    [1900, currentYear + 1], the eight required texts not empty and a
    description of ten characters or more. *)
Definition complete (currentYear : Z) (cd : Details.t) : Prop :=
  1900 <= Details.year cd <= currentYear + 1
  /\ Details.make cd <> "" /\ Details.model cd <> ""
  /\ Details.price cd <> "" /\ Details.mileage cd <> ""
  /\ Details.color cd <> "" /\ Details.fuelType cd <> ""
  /\ Details.transmission cd <> "" /\ Details.bodyType cd <> ""
  /\ 10 <= JS.strlen (Details.description cd).

(** Extraction data for the witnesses. *)
Definition sampleDetails : Details.t :=
  {| Details.make := "Honda"; Details.model := "Civic";
     Details.year := 2019; Details.color := "Blue";
     Details.bodyType := "Hatchback"; Details.fuelType := "Petrol";
     Details.price := "18000"; Details.mileage := "42000";
     Details.transmission := "Manual";
     Details.description := "Blue hatchback, one owner.";
     Details.confidence := 9 # 10 |}.

(** The same extraction data with another confidence. *)
Definition withConfidence (c : Q) (cd : Details.t) : Details.t :=
  {| Details.make := Details.make cd;
     Details.model := Details.model cd;
     Details.year := Details.year cd;
     Details.color := Details.color cd;
     Details.bodyType := Details.bodyType cd;
     Details.fuelType := Details.fuelType cd;
     Details.price := Details.price cd;
     Details.mileage := Details.mileage cd;
     Details.transmission := Details.transmission cd;
     Details.description := Details.description cd;
     Details.confidence := c |}.

End Spec.

(* ================================================================= *)
(** ** [parseInt] reads back what [toString] prints *)

Section ParseInt.
Import JS Spec.

Lemma digits_stop (R : Z) (rest : string) (acc : option Z) :
  match rest with
  | String c _ => radixDigit R c = None
  | EmptyString => True
  end ->
  digits R rest acc = acc.
Proof.
  destruct rest as [|c r]; simpl; [reflexivity|].
  now intros ->.
Qed.

Lemma headIsDigit_stop (rest : string) (acc : option Z) :
  headIsDigit rest = false -> digits 10 rest acc = acc.
Proof.
  intros H. apply digits_stop.
  destruct rest as [|c r]; [exact I|].
  unfold headIsDigit, isDecimalDigit in H.
  now destruct (radixDigit 10 c).
Qed.

(** The accumulator of [digits] is the accumulator of [Pos.of_uint_acc]. *)
Lemma digits_of_uint_acc (ds : string) :
  forall (u : uint) (rest : string) (p : positive),
    NilEmpty.uint_of_string ds = Some u ->
    headIsDigit rest = false ->
    digits 10 (ds ++ rest) (Some (Z.pos p))
    = Some (Z.pos (Pos.of_uint_acc u p)).
Proof.
  induction ds as [|c ds IH]; intros u rest p Hu Hrest.
  - injection Hu as <-. simpl. now apply headIsDigit_stop.
  - simpl in Hu.
    destruct (NilEmpty.uint_of_string ds) as [u'|] eqn:E; [|discriminate].
    apply uint_of_char_spec in Hu.
    specialize (IH u' rest).
    decompose [or and] Hu; subst c u; cbn [append digits];
      match goal with
      | |- context [radixDigit 10 ?c] =>
          change (radixDigit 10 c) with (Some (code c - 48))
      end; cbv [code N_of_ascii N_of_digits]; simpl Z.of_N;
      cbn [Pos.of_uint_acc]; rewrite <- IH by auto;
      do 2 f_equal; lia.
Qed.

(** Leading zeros add nothing, as in [Pos.of_uint]. *)
Lemma digits_of_uint_zero (ds : string) :
  forall (u : uint) (rest : string),
    NilEmpty.uint_of_string ds = Some u ->
    headIsDigit rest = false ->
    digits 10 (ds ++ rest) (Some 0) = Some (Z.of_uint u).
Proof.
  induction ds as [|c ds IH]; intros u rest Hu Hrest.
  - injection Hu as <-. simpl. now apply headIsDigit_stop.
  - simpl in Hu.
    destruct (NilEmpty.uint_of_string ds) as [u'|] eqn:E; [|discriminate].
    apply uint_of_char_spec in Hu.
    pose proof (fun p => digits_of_uint_acc ds u' rest p E Hrest) as Hacc.
    decompose [or and] Hu; subst c u; cbn [append digits];
      match goal with
      | |- context [radixDigit 10 ?c] =>
          change (radixDigit 10 c) with (Some (code c - 48))
      end; cbv [code N_of_ascii N_of_digits]; simpl Z.of_N;
      match goal with
      | |- context [Some (?a * 0 + ?b)] =>
          let v := eval cbv in (a * 0 + b) in change (a * 0 + b) with v
      end;
      [ exact (IH u' rest eq_refl Hrest) | now rewrite Hacc .. ].
Qed.

Lemma digits_first (R : Z) (c : ascii) (r : string) :
  radixDigit R c <> None ->
  digits R (String c r) None = digits R (String c r) (Some 0).
Proof.
  simpl. now destruct (radixDigit R c).
Qed.

Lemma uint_of_string_head (c : ascii) (ds : string) (u : uint) :
  NilEmpty.uint_of_string (String c ds) = Some u ->
  isDecimalDigit c = true /\ isWhiteSpace c = false
  /\ forall r, stripSign (String c r) = (1, String c r).
Proof.
  simpl. destruct (NilEmpty.uint_of_string ds) as [u'|]; [|discriminate].
  intros Hu. apply uint_of_char_spec in Hu.
  decompose [or and] Hu; subst c; repeat split.
Qed.

(** A run of decimal digits, read from its first digit on. *)
Lemma digits_decimal (ds rest : string) (u : uint) :
  NilEmpty.uint_of_string ds = Some u ->
  ds <> "" ->
  headIsDigit rest = false ->
  digits 10 (ds ++ rest) None = Some (Z.of_uint u).
Proof.
  intros Hu Hne Hrest.
  destruct ds as [|c ds]; [congruence|].
  destruct (uint_of_string_head c ds u Hu) as (Hc & _).
  rewrite <- (digits_of_uint_zero _ u rest Hu Hrest).
  apply digits_first.
  unfold isDecimalDigit in Hc. now destruct (radixDigit 10 c).
Qed.

(** The prefix 0x needs the digit run to be a lone 0. *)
Lemma stripPrefix_decimal (ds rest : string) (u : uint) :
  NilEmpty.uint_of_string ds = Some u ->
  ds <> "" ->
  Z.of_uint u <> 0 \/ rest = "" ->
  stripPrefix (ds ++ rest) = (10, ds ++ rest).
Proof.
  intros Hu Hne Hz.
  destruct ds as [|c ds]; [congruence|].
  simpl in Hu.
  destruct (NilEmpty.uint_of_string ds) as [u'|] eqn:E; [|discriminate].
  apply uint_of_char_spec in Hu.
  decompose [or and] Hu; subst c u; try reflexivity.
  destruct ds as [|c' ds].
  - injection E as <-. destruct Hz as [Hz | ->]; [now elim Hz | reflexivity].
  - simpl in E.
    destruct (NilEmpty.uint_of_string ds) as [u''|]; [|discriminate].
    apply uint_of_char_spec in E.
    decompose [or and] E; subst c'; reflexivity.
Qed.

Lemma magnitude_decimal (ds rest : string) (u : uint) :
  NilEmpty.uint_of_string ds = Some u ->
  ds <> "" ->
  headIsDigit rest = false ->
  Z.of_uint u <> 0 \/ rest = "" ->
  magnitude (ds ++ rest) = Some (Z.of_uint u).
Proof.
  intros Hu Hne Hrest Hz. unfold magnitude.
  rewrite (stripPrefix_decimal ds rest u Hu Hne Hz).
  now apply digits_decimal.
Qed.

(** [parseInt] on a string that starts with a run of decimal digits. *)
Lemma parseInt_decimal (ds rest : string) (u : uint) :
  NilEmpty.uint_of_string ds = Some u ->
  ds <> "" ->
  headIsDigit rest = false ->
  Z.of_uint u <> 0 \/ rest = "" ->
  parseInt (ds ++ rest) = Some (Z.of_uint u).
Proof.
  intros Hu Hne Hrest Hz. unfold parseInt.
  pose proof (magnitude_decimal ds rest u Hu Hne Hrest Hz) as Hm.
  destruct ds as [|c ds]; [congruence|].
  destruct (uint_of_string_head c ds u Hu) as (_ & Hw & Hs).
  cbn [append trimStart] in *. rewrite Hw, Hs, Hm.
  f_equal. lia.
Qed.

Lemma string_of_uint_nonnil (u : uint) :
  u <> Nil -> NilZero.string_of_uint u = NilEmpty.string_of_uint u.
Proof. now destruct u. Qed.

Lemma string_of_uint_nonempty (u : uint) :
  u <> Nil -> NilEmpty.string_of_uint u <> "".
Proof. now destruct u. Qed.

Lemma append_empty (s : string) : s ++ "" = s.
Proof. induction s; simpl; congruence. Qed.

Lemma magnitude_of_pos (p : positive) :
  magnitude (NilZero.string_of_uint (Pos.to_uint p)) = Some (Z.pos p).
Proof.
  pose proof (Unsigned.to_uint_nonnil p) as Hn.
  rewrite (string_of_uint_nonnil _ Hn).
  rewrite <- (append_empty (NilEmpty.string_of_uint _)).
  rewrite (magnitude_decimal _ "" (Pos.to_uint p));
    auto using NilEmpty.usu, string_of_uint_nonempty.
  unfold Z.of_uint. now rewrite Unsigned.of_to.
Qed.

(** The round trip: [parseInt(String(n))] is [n], for every integer. *)
Lemma parseInt_toString (n : Z) : parseInt (toString n) = Some n.
Proof.
  destruct n as [|p|p]; [reflexivity| |].
  - unfold toString. cbn [Z.to_int NilZero.string_of_int].
    pose proof (Unsigned.to_uint_nonnil p) as Hn.
    rewrite (string_of_uint_nonnil _ Hn).
    rewrite <- (append_empty (NilEmpty.string_of_uint _)).
    rewrite (parseInt_decimal _ "" (Pos.to_uint p));
      auto using NilEmpty.usu, string_of_uint_nonempty.
    unfold Z.of_uint. now rewrite Unsigned.of_to.
  - unfold toString, parseInt.
    cbn [Z.to_int NilZero.string_of_int trimStart].
    change (isWhiteSpace "-") with false. cbn [stripSign].
    change (stripSign (String "-" ?s)) with (-1, s).
    now rewrite magnitude_of_pos.
Qed.

(** *** Strings that only start with digits *)

Lemma isDecimalDigit_char (c : ascii) (u : uint) :
  isDecimalDigit c = true -> uint_of_char c (Some u) <> None.
Proof.
  destruct c as [[|] [|] [|] [|] [|] [|] [|] [|]];
    vm_compute; congruence.
Qed.

Lemma leadingDigits_uint (s : string) :
  exists u, NilEmpty.uint_of_string (leadingDigits s) = Some u.
Proof.
  induction s as [|c r [u IH]]; simpl; [now exists Nil|].
  destruct (isDecimalDigit c) eqn:Hc; simpl; [|now exists Nil].
  rewrite IH.
  destruct (uint_of_char c (Some u)) as [u'|] eqn:E; [now exists u'|].
  now apply isDecimalDigit_char in E.
Qed.

Lemma leadingDigits_split (s : string) :
  s = leadingDigits s ++ afterDigits s
  /\ headIsDigit (afterDigits s) = false.
Proof.
  induction s as [|c r [IH1 IH2]]; simpl; [now split|].
  destruct (isDecimalDigit c) eqn:Hc; simpl.
  - split; [now rewrite <- IH1 | exact IH2].
  - now split.
Qed.

(** [parseInt] returns the value of the leading digits, whatever follows
    them, unless that value is zero. *)
Lemma parseInt_leadingDigits (s : string) (v : Z) :
  leadingDigits s <> "" ->
  decimalValue (leadingDigits s) = Some v ->
  v <> 0 ->
  parseInt s = Some v.
Proof.
  intros Hne Hv Hnz.
  destruct (leadingDigits_uint s) as [u Hu].
  destruct (leadingDigits_split s) as [Hs Hrest].
  unfold decimalValue in Hv. rewrite Hu in Hv. injection Hv as <-.
  rewrite Hs at 1.
  apply parseInt_decimal; auto.
Qed.

End ParseInt.

(* ================================================================= *)
(** ** [carFormSchema] *)

Section SchemaFacts.
Import Schema.

Lemma yearRefinement_toString (currentYear y : Z) :
  yearRefinement currentYear (JS.toString y)
  = (1900 <=? y) && (y <=? currentYear + 1).
Proof.
  unfold yearRefinement. now rewrite parseInt_toString.
Qed.

Lemma Field_eqb_eq (f g : Field.name) : Field.eqb f g = true <-> f = g.
Proof.
  split; [destruct f, g; simpl; congruence | intros ->; now destruct g].
Qed.

Lemma Field_eqb_refl (f : Field.name) : Field.eqb f f = true.
Proof. now apply Field_eqb_eq. Qed.

Lemma errorOf_app (f : Field.name) (a b : Errors) :
  errorOf f (a ++ b)%list
  = match errorOf f a with Some m => Some m | None => errorOf f b end.
Proof.
  induction a as [|[g m] a IH]; simpl; [reflexivity|].
  now destruct (Field.eqb f g).
Qed.

Lemma min_empty (message : string) :
  min 1 message "" = Some (Message message).
Proof. reflexivity. Qed.

Lemma min_nonempty (message val : string) :
  val <> "" -> min 1 message val = None.
Proof.
  intros H. destruct val as [|c r]; [congruence|].
  unfold min, JS.strlen. simpl String.length.
  destruct (Z.ltb_spec (Z.of_nat (S (String.length r))) 1); [lia|reflexivity].
Qed.

Lemma min_long (n : Z) (message val : string) :
  n <= JS.strlen val -> min n message val = None.
Proof.
  intros H. unfold min.
  destruct (Z.ltb_spec (JS.strlen val) n); [lia|reflexivity].
Qed.

Lemma enum_In (options : list string) (val : string) :
  In val options -> enum options val = None.
Proof.
  intros H. unfold enum.
  replace (existsb (String.eqb val) options) with true; [reflexivity|].
  symmetry. apply existsb_exists. exists val. split; [exact H|].
  apply String.eqb_refl.
Qed.

Lemma errorOf_checkField (f g : Field.name) (chk : Check) (d : Draft.t) :
  errorOf f (checkField d (g, chk))
  = if Field.eqb f g then chk (Draft.get g d) else None.
Proof.
  unfold checkField. cbn [fst snd].
  destruct (chk (Draft.get g d)); simpl; now destruct (Field.eqb f g).
Qed.

(** The message under a field: the issue of its own key. *)
Ltac errorOf_key :=
  unfold validate, carFormSchema; cbn [flat_map];
  rewrite !errorOf_app, !errorOf_checkField;
  cbn [Field.eqb errorOf Draft.get].

(** What the resolver reports for the key [year] depends on the year
    alone. *)
Lemma errorOf_year (currentYear : Z) (d : Draft.t) :
  errorOf Field.year (validate currentYear d)
  = yearSchema currentYear (Draft.year d).
Proof.
  errorOf_key. now destruct (yearSchema currentYear (Draft.year d)).
Qed.

(** The optional key never reports. *)
Lemma errorOf_seats (currentYear : Z) (d : Draft.t) :
  errorOf Field.seats (validate currentYear d) = None.
Proof.
  errorOf_key. reflexivity.
Qed.

Lemma yearSchema_accepts (currentYear : Z) (val : string) :
  yearSchema currentYear val = None
  <-> yearRefinement currentYear val = true.
Proof.
  unfold yearSchema, refine.
  destruct (yearRefinement currentYear val); split; congruence.
Qed.

Lemma yearSchema_rejects (currentYear : Z) (val : string) :
  yearSchema currentYear val = Some (Message "Valid year required")
  <-> yearRefinement currentYear val = false.
Proof.
  unfold yearSchema, refine.
  destruct (yearRefinement currentYear val); split; congruence.
Qed.

Lemma in_range_true (lo hi y : Z) :
  (lo <=? y) && (y <=? hi) = true <-> lo <= y <= hi.
Proof. rewrite andb_true_iff, !Z.leb_le. tauto. Qed.

Lemma in_range_false (lo hi y : Z) :
  (lo <=? y) && (y <=? hi) = false <-> ~ (lo <= y <= hi).
Proof.
  rewrite <- in_range_true.
  destruct ((lo <=? y) && (y <=? hi)); split; congruence.
Qed.

(** C2: at a fixed current year, the year schema accepts the string
    form of an integer [y] exactly when 1900 <= y <= currentYear + 1, and
    rejects it with the message "Valid year required" exactly when [y]
    is outside that range; the resolver reports under the key [year]
    what the year schema says of the year the draft holds. *)
Theorem year_validation_range (currentYear y : Z) :
  (yearSchema currentYear (JS.toString y) = None
   <-> 1900 <= y <= currentYear + 1)
  /\ (yearSchema currentYear (JS.toString y)
      = Some (Message "Valid year required")
      <-> ~ (1900 <= y <= currentYear + 1))
  /\ (forall d : Draft.t,
        errorOf Field.year
          (validate currentYear
             (Draft.setValue Field.year (JS.toString y) d))
        = yearSchema currentYear (JS.toString y)).
Proof.
  split; [|split].
  - etransitivity; [apply yearSchema_accepts|].
    rewrite yearRefinement_toString. apply in_range_true.
  - etransitivity; [apply yearSchema_rejects|].
    rewrite yearRefinement_toString. apply in_range_false.
  - intros d. apply errorOf_year.
Qed.

Lemma toString_inj_at (n : Z) (s : string) (v : Z) :
  JS.parseInt s = Some v -> JS.toString v <> s -> JS.toString n <> s.
Proof.
  intros Hs Hv Hn. apply Hv.
  rewrite <- Hn in Hs. rewrite parseInt_toString in Hs.
  now injection Hs as ->.
Qed.

(** C10: the year is read by [parseInt], which stops at the first
    character that is not a digit.  A string whose leading run of
    decimal digits denotes an integer of [1900, currentYear + 1] is
    accepted as a year whatever follows the digits.  "2005abc" is such a
    string from 2004 on, and it is the string form of no integer. *)
Theorem year_accepts_digit_prefix (currentYear : Z) (s : string) (v : Z) :
  Spec.leadingDigits s <> "" ->
  Spec.decimalValue (Spec.leadingDigits s) = Some v ->
  1900 <= v <= currentYear + 1 ->
  yearSchema currentYear s = None
  /\ (forall d : Draft.t,
        errorOf Field.year
          (validate currentYear (Draft.setValue Field.year s d)) = None)
  /\ (forall n : Z, JS.toString n <> "2005abc")
  /\ (2004 <= currentYear -> yearSchema currentYear "2005abc" = None).
Proof.
  intros Hne Hv Hr.
  assert (Hs : yearSchema currentYear s = None).
  { apply yearSchema_accepts. unfold yearRefinement.
    rewrite (parseInt_leadingDigits s v Hne Hv) by lia.
    now apply in_range_true. }
  repeat split.
  - exact Hs.
  - intros d. rewrite errorOf_year. exact Hs.
  - intros n. now apply (toString_inj_at n "2005abc" 2005).
  - intros Hy. apply yearSchema_accepts. unfold yearRefinement.
    change (JS.parseInt "2005abc") with (Some 2005).
    apply in_range_true. lia.
Qed.

Lemma year_accepts_digit_prefix_witness :
  Spec.leadingDigits "2005abc" = "2005"
  /\ Spec.decimalValue "2005" = Some 2005
  /\ yearSchema 2025 "2005abc" = None.
Proof.
  split; [reflexivity|]. split; [reflexivity|].
  destruct (year_accepts_digit_prefix 2025 "2005abc" 2005) as [H _];
    [discriminate | reflexivity | lia | exact H].
Defined.

(** C7: when one of the eight required fields is empty and every other
    field holds a value the schema accepts, the resolver reports one
    issue, under that field and with its required-field message; no
    other field, the optional [seats] included, has an error.  And
    [seats] has no error in any draft at all. *)
Theorem missing_required_field
  (currentYear : Z) (d : Draft.t) (f : Field.name) :
  In f Spec.required ->
  Draft.get f d = "" ->
  Spec.othersValid currentYear f d ->
  validate currentYear d = [(f, Message (Spec.requiredMessage f))]
  /\ errorOf f (validate currentYear d)
     = Some (Message (Spec.requiredMessage f))
  /\ (forall g, g <> f -> errorOf g (validate currentYear d) = None)
  /\ (forall d' : Draft.t,
        errorOf Field.seats (validate currentYear d') = None).
Proof.
  intros Hf Hempty (Hreq & Hyear & Hdesc & Hstatus).
  assert (Hv : validate currentYear d
               = [(f, Message (Spec.requiredMessage f))]).
  { apply yearSchema_accepts in Hyear.
    unfold validate, carFormSchema, checkField.
    cbn [flat_map fst snd Draft.get].
    rewrite Hyear, (min_long 10 _ _ Hdesc), (enum_In _ _ Hstatus).
    unfold optional.
    simpl in Hf.
    decompose [or] Hf; try contradiction; subst f;
      cbn [Draft.get] in Hempty; rewrite Hempty, min_empty;
      rewrite !min_nonempty
        by (first [ apply (Hreq Field.make) | apply (Hreq Field.model)
                  | apply (Hreq Field.price) | apply (Hreq Field.mileage)
                  | apply (Hreq Field.color) | apply (Hreq Field.fuelType)
                  | apply (Hreq Field.transmission)
                  | apply (Hreq Field.bodyType) ];
            [ simpl; tauto | discriminate ]);
      reflexivity. }
  rewrite Hv. repeat split.
  - simpl. now rewrite Field_eqb_refl.
  - intros g Hg. simpl.
    destruct (Field.eqb g f) eqn:E; [|reflexivity].
    now apply Field_eqb_eq in E.
  - intros d'. apply errorOf_seats.
Qed.

Lemma missing_required_field_witness :
  let d :=
    {| Draft.make := ""; Draft.model := "Camry"; Draft.year := "2022";
       Draft.price := "25000"; Draft.mileage := "15000";
       Draft.color := "Red"; Draft.fuelType := "Petrol";
       Draft.transmission := "Automatic"; Draft.bodyType := "Sedan";
       Draft.seats := ""; Draft.description := "A well kept sedan.";
       Draft.status := "AVAILABLE"; Draft.featured := false |} in
  validate 2025 d = [(Field.make, Message "Make is required")].
Proof.
  intros d.
  refine (proj1 (missing_required_field 2025 d Field.make _ _ _)).
  - simpl. tauto.
  - reflexivity.
  - repeat split.
    + intros g Hg Hne. simpl in Hg.
      decompose [or] Hg; try contradiction; subst g;
        solve [ discriminate | now elim Hne ].
    + unfold JS.strlen. simpl. lia.
    + simpl. tauto.
Defined.

End SchemaFacts.

(* ================================================================= *)
(** ** Submission without images *)

Section Submission.
Import Form.

(** C1: when [onSubmit] runs with an empty image list, the image error
    becomes "Please upload at least one image", [addCar] is not called
    and the draft is as before; nothing else of the state changes.  The
    same holds of a whole [handleSubmit] for the call log and the draft:
    with no image, no submission reaches [addCar]. *)
Theorem onSubmit_without_images (data : Draft.t) (s : State) :
  uploadedImages s = [] ->
  imageError (onSubmit data s) = "Please upload at least one image"
  /\ addCarCalls (onSubmit data s) = addCarCalls s
  /\ values (onSubmit data s) = values s
  /\ onSubmit data s = setImageError Spec.atLeastOneImage s
  /\ (forall currentYear,
        addCarCalls (handleSubmit currentYear s) = addCarCalls s
        /\ values (handleSubmit currentYear s) = values s).
Proof.
  intros Himg.
  assert (H : onSubmit data s = setImageError Spec.atLeastOneImage s).
  { unfold onSubmit, len. now rewrite Himg. }
  rewrite H. do 4 (split; [reflexivity|]).
  intros currentYear. unfold handleSubmit.
  destruct (Schema.validate currentYear (values s)); [|now split].
  unfold onSubmit, len. cbn [setErrors uploadedImages]. rewrite Himg.
  now split.
Qed.

Lemma onSubmit_without_images_witness :
  imageError (onSubmit Draft.defaultValues initial)
  = "Please upload at least one image"
  /\ addCarCalls (onSubmit Draft.defaultValues initial) = [].
Proof.
  destruct (onSubmit_without_images Draft.defaultValues initial eq_refl)
    as (H1 & H2 & _).
  split; [exact H1 | exact H2].
Defined.

End Submission.

(* ================================================================= *)
(** ** Removing images *)

Section Removal.
Import Form.

Lemma filterIndex_below (indexToRemove index : nat) (prev : list string) :
  (indexToRemove < index)%nat ->
  filterIndex indexToRemove index prev = prev.
Proof.
  revert index. induction prev as [|image rest IH]; intros index H.
  - reflexivity.
  - simpl. destruct (Nat.eqb_spec index indexToRemove); [lia|].
    simpl. f_equal. apply IH. lia.
Qed.

(** Filtering on the index drops the element at that index. *)
Lemma filterIndex_spec (prev : list string) :
  forall i index : nat,
    filterIndex (index + i) index prev
    = (firstn i prev ++ skipn (S i) prev)%list.
Proof.
  induction prev as [|image rest IH]; intros i index.
  - now destruct i.
  - simpl filterIndex.
    destruct i as [|i].
    + rewrite Nat.add_0_r, Nat.eqb_refl. simpl.
      apply filterIndex_below. lia.
    + destruct (Nat.eqb_spec index (index + S i)); [lia|].
      simpl. f_equal.
      replace (index + S i)%nat with (S index + i)%nat by lia.
      apply IH.
Qed.

(** C6: for a valid index [i], [removeImage i] leaves the images before
    position [i] where they are, moves each later image down by one
    position, and drops the image at [i]: the list is one shorter.  When
    the list had one image, the error "Please upload at least one image"
    is set.  The draft is not touched. *)
Theorem removeImage_at (s : State) (i : nat) :
  (i < List.length (uploadedImages s))%nat ->
  uploadedImages (removeImage i s)
  = (firstn i (uploadedImages s) ++ skipn (S i) (uploadedImages s))%list
  /\ S (List.length (uploadedImages (removeImage i s)))
     = List.length (uploadedImages s)
  /\ (forall j, (j < i)%nat ->
        nth_error (uploadedImages (removeImage i s)) j
        = nth_error (uploadedImages s) j)
  /\ (forall j, (i <= j)%nat ->
        nth_error (uploadedImages (removeImage i s)) j
        = nth_error (uploadedImages s) (S j))
  /\ (List.length (uploadedImages s) = 1%nat ->
        imageError (removeImage i s) = "Please upload at least one image")
  /\ values (removeImage i s) = values s.
Proof.
  intros Hi.
  assert (Hl : uploadedImages (removeImage i s)
               = (firstn i (uploadedImages s)
                    ++ skipn (S i) (uploadedImages s))%list).
  { unfold removeImage.
    destruct (len (uploadedImages s) - 1 =? 0);
      cbn [setImageError setUploadedImages uploadedImages];
      apply (filterIndex_spec _ i 0%nat). }
  assert (Hf : List.length (firstn i (uploadedImages s)) = i)
    by (apply firstn_length_le; lia).
  rewrite Hl. repeat split.
  - rewrite length_app, Hf, length_skipn. lia.
  - intros j Hj. rewrite nth_error_app1 by lia.
    rewrite nth_error_firstn.
    destruct (Nat.ltb_spec j i); [reflexivity | lia].
  - intros j Hj. rewrite nth_error_app2 by lia.
    rewrite Hf, nth_error_skipn. f_equal. lia.
  - intros H1. unfold removeImage, len. rewrite H1. reflexivity.
  - unfold removeImage.
    now destruct (len (uploadedImages s) - 1 =? 0).
Qed.

Lemma removeImage_at_witness :
  let s := setUploadedImages ["a"; "b"; "c"] initial in
  uploadedImages (removeImage 1 s) = ["a"; "c"].
Proof.
  intros s.
  refine (proj1 (removeImage_at s 1 _)).
  simpl. lia.
Defined.

Lemma filter_differs_spec (p : string) (l : list string) :
  (~ In p (filter (fun img => differs img (Some p)) l))
  /\ (forall img,
        In img (filter (fun img => differs img (Some p)) l)
        <-> In img l /\ img <> p)
  /\ (List.length (filter (fun img => differs img (Some p)) l)
      + count_occ string_dec l p)%nat = List.length l.
Proof.
  assert (Hd : forall img, differs img (Some p) = true <-> img <> p).
  { intros img. unfold differs.
    destruct (String.eqb_spec img p); simpl; split; congruence. }
  repeat split.
  - intros H. apply filter_In in H. destruct H as [_ H].
    now apply Hd in H.
  - now apply filter_In in H.
  - apply filter_In in H. now apply Hd.
  - intros [H1 H2]. apply filter_In. split; [exact H1 | now apply Hd].
  - induction l as [|x l IH]; [reflexivity|].
    cbn [filter count_occ].
    destruct (differs x (Some p)) eqn:E; destruct (string_dec x p) as [e|n];
      cbn [List.length]; try lia.
    + apply Hd in E. contradiction.
    + apply Hd in n. congruence.
Qed.

(** C9: the remove button of the extraction preview filters the shared
    list by value.  Every image equal to the preview goes, as many as
    there are, and every other image stays in its order; the preview
    and the stored file are cleared.  So a manually uploaded image with
    the same payload as the preview is removed with it. *)
Theorem removePreview_by_value (s : State) (p : string) :
  imagePreview s = Some p ->
  uploadedImages (removePreview s)
  = filter (fun img => negb (String.eqb img p)) (uploadedImages s)
  /\ ~ In p (uploadedImages (removePreview s))
  /\ (forall img,
        In img (uploadedImages (removePreview s))
        <-> In img (uploadedImages s) /\ img <> p)
  /\ (List.length (uploadedImages (removePreview s))
      + count_occ string_dec (uploadedImages s) p)%nat
     = List.length (uploadedImages s)
  /\ imagePreview (removePreview s) = None
  /\ uploadedAiImage (removePreview s) = None.
Proof.
  intros Hp.
  assert (Hl : uploadedImages (removePreview s)
               = filter (fun img => differs img (Some p))
                   (uploadedImages s)).
  { unfold removePreview. now rewrite Hp. }
  destruct (filter_differs_spec p (uploadedImages s)) as (H1 & H2 & H3).
  rewrite Hl.
  split; [reflexivity|]. split; [exact H1|]. split; [exact H2|].
  split; [exact H3|]. split; reflexivity.
Qed.

(** A manual upload and the extraction image with one payload: both go. *)
Lemma removePreview_by_value_witness :
  let s := aiReader_onload "data:x" (setUploadedImages ["data:x"; "data:y"] initial) in
  uploadedImages s = ["data:x"; "data:y"; "data:x"]
  /\ uploadedImages (removePreview s) = ["data:y"].
Proof.
  intros s. split; [reflexivity|].
  exact (proj1 (removePreview_by_value s "data:x" eq_refl)).
Defined.

End Removal.

(* ================================================================= *)
(** ** Extraction *)

Section Extraction.
Import Form.

Lemma setValue_setValues
  (f : Field.name) (v : string) (d : Draft.t) (s : State) :
  setValue f v (setValues d s) = setValues (Draft.setValue f v d) s.
Proof. reflexivity. Qed.

Lemma setValues_values (s : State) : setValues (values s) s = s.
Proof. now destruct s. Qed.

(** The ten [setValue] calls of the effect, taken together. *)
Lemma useEffect_processImageResult_success (s : State) (cd : Details.t) :
  fetch_data (processImage s)
  = Some {| ai_success := true; ai_data := Some cd |} ->
  useEffect_processImageResult s
  = setActiveTab "manual"
      (toast
         (toast_success "Successfully extracted car details"
            (Some (Detected (Details.year cd) (Details.make cd)
                     (Details.model cd) (Details.confidence cd))))
         (setValues (Spec.extracted cd (values s)) s)).
Proof.
  intros Hh. unfold useEffect_processImageResult. rewrite Hh. cbv zeta.
  rewrite <- (setValues_values s) at 1.
  rewrite !setValue_setValues.
  do 2 f_equal.
Qed.

Lemma processImage_settles_success (s : State) (cd : Details.t) :
  let r := {| ai_success := true; ai_data := Some cd |} in
  processImage_settles (resolved r) s
  = setActiveTab "manual"
      (toast
         (toast_success "Successfully extracted car details"
            (Some (Detected (Details.year cd) (Details.make cd)
                     (Details.model cd) (Details.confidence cd))))
         (setValues (Spec.extracted cd (values s))
            (setProcessImage (fetch_settle (resolved r) (processImage s))
               s))).
Proof.
  intros r. unfold processImage_settles.
  now rewrite (useEffect_processImageResult_success _ cd).
Qed.

(** C4: a response [{success: true, data}] makes the effect write the
    ten fields make, model, year, color, bodyType, fuelType, price,
    mileage, transmission and description of [data] into the draft, as
    they are but for the year, written in its string form (the decimal
    numeral, for a year that is a safe integer); seats, status and
    featured keep their values, no validation runs, and the active tab
    becomes "manual".  The confidence only reaches the notification:
    another confidence gives the same draft, the same tab and the same
    validation result. *)
Theorem extraction_success (s : State) (cd : Details.t) :
  let settles data :=
    processImage_settles
      (resolved {| ai_success := true; ai_data := Some data |}) s in
  Draft.make (values (settles cd)) = Details.make cd
  /\ Draft.model (values (settles cd)) = Details.model cd
  /\ (JS.isSafeInteger (Details.year cd) = true ->
        Draft.year (values (settles cd)) = JS.toString (Details.year cd))
  /\ Draft.color (values (settles cd)) = Details.color cd
  /\ Draft.bodyType (values (settles cd)) = Details.bodyType cd
  /\ Draft.fuelType (values (settles cd)) = Details.fuelType cd
  /\ Draft.price (values (settles cd)) = Details.price cd
  /\ Draft.mileage (values (settles cd)) = Details.mileage cd
  /\ Draft.transmission (values (settles cd)) = Details.transmission cd
  /\ Draft.description (values (settles cd)) = Details.description cd
  /\ Draft.seats (values (settles cd)) = Draft.seats (values s)
  /\ Draft.status (values (settles cd)) = Draft.status (values s)
  /\ Draft.featured (values (settles cd)) = Draft.featured (values s)
  /\ activeTab (settles cd) = "manual"
  /\ errors (settles cd) = errors s
  /\ uploadedImages (settles cd) = uploadedImages s
  /\ toasts (settles cd)
     = (toasts s
          ++ [toast_success "Successfully extracted car details"
                (Some (Detected (Details.year cd) (Details.make cd)
                         (Details.model cd) (Details.confidence cd)))])%list
  /\ (forall c : Q,
        values (settles (Spec.withConfidence c cd)) = values (settles cd)
        /\ activeTab (settles (Spec.withConfidence c cd))
           = activeTab (settles cd)
        /\ forall currentYear,
             Schema.validate currentYear
               (values (settles (Spec.withConfidence c cd)))
             = Schema.validate currentYear (values (settles cd))).
Proof.
  intros settles. subst settles. cbv beta.
  pose proof (processImage_settles_success s) as H. cbv zeta in H.
  repeat match goal with
         | |- _ /\ _ => split
         | |- forall _, _ => intro
         | |- _ -> _ => intro
         end; rewrite !H; reflexivity.
Qed.

(** The extraction of a blue 2019 Honda Civic into a form that held a
    Toyota: the year field reads "2019", and the seats stay. *)
Lemma extraction_success_witness :
  let s' :=
    processImage_settles
      (resolved {| ai_success := true;
                   ai_data := Some Spec.sampleDetails |})
      Spec.sampleState in
  JS.isSafeInteger 2019 = true
  /\ Draft.year (values s') = "2019"
  /\ Draft.make (values s') = "Honda"
  /\ Draft.seats (values s') = "5"
  /\ activeTab s' = "manual".
Proof.
  intros s'. subst s'.
  pose proof (extraction_success Spec.sampleState Spec.sampleDetails) as H.
  cbv zeta in H.
  destruct H as (Hmake & _ & Hyear & _ & _ & _ & _ & _ & _ & _ & Hseats
                 & _ & _ & Htab & _).
  split; [reflexivity|].
  split; [exact (Hyear eq_refl)|].
  split; [exact Hmake|].
  split; [exact Hseats | exact Htab].
Defined.

(** A response that is not a success with data changes nothing but the
    hook. *)
Lemma extraction_without_data (s : State) (r : AiResponse) :
  ai_success r = false \/ ai_data r = None ->
  processImage_settles (resolved r) s
  = setProcessImage (fetch_settle (resolved r) (processImage s)) s.
Proof.
  destruct r as [[|] [cd|]]; simpl; intros [H|H]; try discriminate;
    reflexivity.
Qed.

(** C8: when the extraction call ends in an error, the effect shows
    one error notification, with the message of the error (the fixed
    text "Failed to process car image" when the error has none); the
    draft, the validation errors, the images and the active tab are as
    before.  Starting the call changes none of them either. *)
Theorem extraction_error (s : State) (e : Error) :
  toasts (processImage_settles (rejected e) s)
  = (toasts s ++ [toast_error (Spec.extractionErrorText e)])%list
  /\ values (processImage_settles (rejected e) s) = values s
  /\ activeTab (processImage_settles (rejected e) s) = activeTab s
  /\ errors (processImage_settles (rejected e) s) = errors s
  /\ uploadedImages (processImage_settles (rejected e) s)
     = uploadedImages s
  /\ values (processImage_settles (rejected e) (processWithAI s))
     = values s
  /\ activeTab (processImage_settles (rejected e) (processWithAI s))
     = activeTab s.
Proof.
  unfold processWithAI.
  destruct (uploadedAiImage s); repeat split.
Qed.

End Extraction.

(* ================================================================= *)
(** ** The outcome of the create call *)

Section Creation.
Import Form.

(** A successful create call notifies and sends the admin to the
    listing. *)
Lemma addCar_success_redirects (s : State) :
  pushes (addCar_settles (resolved {| success := true |}) s)
  = (pushes s ++ ["/admin/cars"])%list
  /\ toasts (addCar_settles (resolved {| success := true |}) s)
     = (toasts s ++ [toast_success "Car added successfully" None])%list.
Proof. split; reflexivity. Qed.

(** Whatever the outcome, the draft and the images stay. *)
Lemma addCar_settles_keeps_draft (o : Outcome AddCarResponse) (s : State) :
  values (addCar_settles o s) = values s
  /\ uploadedImages (addCar_settles o s) = uploadedImages s
  /\ imageError (addCar_settles o s) = imageError s
  /\ activeTab (addCar_settles o s) = activeTab s.
Proof.
  destruct o as [[[|]]|e]; repeat split.
Qed.

(** C5, on the component as it is: a valid draft with one image is
    submitted in 2025, [addCar] is called once, and the call fails,
    by a response [{success: false}] or by an error.  The draft and the
    image are kept, but no notification at all is shown and the admin
    stays where they are: the failure is not surfaced. *)
Theorem addCar_failure_not_surfaced :
  let s0 :=
    setUploadedImages ["data:image/png;base64,AAAA"]
      (setValues Spec.sampleDraft initial) in
  let s1 := handleSubmit 2025 s0 in
  let failed := addCar_settles (resolved {| success := false |}) s1 in
  List.length (addCarCalls s1) = 1%nat
  /\ toasts failed = []
  /\ pushes failed = []
  /\ values failed = values s0
  /\ uploadedImages failed = uploadedImages s0
  /\ (forall e : Error,
        toasts (addCar_settles (rejected e) s1) = []
        /\ values (addCar_settles (rejected e) s1) = values s0).
Proof.
  vm_compute. repeat split.
Qed.

End Creation.

(* ================================================================= *)
(** ** Image intake *)

Section Intake.
Import Form.

Lemma setToasts_nil (s : State) : setToasts (toasts s ++ []) s = s.
Proof. destruct s. simpl. now rewrite app_nil_r. Qed.

Lemma oversize_gtb (file : File.t) :
  (File.size file >? maxSize) = Spec.oversize file.
Proof. apply Z.gtb_ltb. Qed.

(** The filter keeps the conforming files in their order and notifies
    once for each of the others, in their order. *)
Lemma filterValid_spec (acceptedFiles : list File.t) :
  forall s : State,
    filterValid acceptedFiles s
    = (filter Spec.conforming acceptedFiles,
       setToasts
         (toasts s ++ map Spec.warning (filter Spec.oversize acceptedFiles))
         s).
Proof.
  induction acceptedFiles as [|file rest IH]; intros s.
  - simpl. now rewrite setToasts_nil.
  - cbn [filterValid filter]. unfold Spec.conforming at 1.
    rewrite oversize_gtb.
    destruct (Spec.oversize file); cbn [negb].
    + rewrite IH. f_equal. unfold toast. cbn [toasts setToasts map].
      now rewrite <- app_assoc.
    + now rewrite IH.
Qed.

Lemma partition_length (acceptedFiles : list File.t) :
  (List.length (filter Spec.conforming acceptedFiles)
   + List.length (filter Spec.oversize acceptedFiles))%nat
  = List.length acceptedFiles.
Proof.
  induction acceptedFiles as [|file rest IH]; [reflexivity|].
  cbn [filter]. unfold Spec.conforming at 1.
  destruct (Spec.oversize file); cbn [negb List.length]; lia.
Qed.

Lemma Permutation_filter {A} (f : A -> bool) (l l' : list A) :
  Permutation l l' -> Permutation (filter f l) (filter f l').
Proof.
  induction 1 as [|x l l' _ IH|x y l|l l' l'' _ IH1 _ IH2]; cbn [filter].
  - constructor.
  - destruct (f x); [now constructor | exact IH].
  - destruct (f x), (f y); try reflexivity. constructor.
  - now transitivity (filter f l').
Qed.

(** Reads that complete a batch: only the last [onload] touches the
    state. *)
Lemma readAll_completes (completed : list File.t) :
  forall (valid : list File.t) (acc : list string) (s : State),
    (List.length acc + List.length completed)%nat = List.length valid ->
    completed <> [] ->
    readAll completed {| validFiles := valid; newImages := acc |} s
    = ({| validFiles := valid;
          newImages := acc ++ map File.dataURL completed |},
       Spec.completes (List.length valid)
         (acc ++ map File.dataURL completed) s).
Proof.
  induction completed as [|file rest IH]; intros valid acc s Hlen Hne;
    [congruence|].
  cbn [readAll]. unfold reader_onload. cbn [newImages validFiles].
  unfold len. rewrite length_app. cbn [List.length] in *.
  destruct rest as [|file' rest].
  - cbn [List.length] in Hlen.
    destruct (Z.eqb_spec (Z.of_nat (List.length acc + 1))
                (Z.of_nat (List.length valid))); [|lia].
    reflexivity.
  - cbn [List.length] in *.
    destruct (Z.eqb_spec (Z.of_nat (List.length acc + 1))
                (Z.of_nat (List.length valid))); [lia|].
    rewrite IH; [| rewrite length_app; cbn [List.length]; lia
                 | discriminate].
    cbn [map]. now rewrite <- !app_assoc.
Qed.

(** Reads that do not complete the batch leave the state alone. *)
Lemma readAll_pending (completed : list File.t) :
  forall (valid : list File.t) (acc : list string) (s : State),
    (List.length acc + List.length completed < List.length valid)%nat ->
    readAll completed {| validFiles := valid; newImages := acc |} s
    = ({| validFiles := valid;
          newImages := acc ++ map File.dataURL completed |}, s).
Proof.
  induction completed as [|file rest IH]; intros valid acc s Hlen.
  - cbn [readAll map]. now rewrite app_nil_r.
  - cbn [readAll]. unfold reader_onload. cbn [newImages validFiles].
    unfold len. rewrite length_app. cbn [List.length] in *.
    destruct (Z.eqb_spec (Z.of_nat (List.length acc + 1))
                (Z.of_nat (List.length valid))); [lia|].
    rewrite IH by (rewrite length_app; cbn [List.length]; lia).
    cbn [map]. now rewrite <- !app_assoc.
Qed.

(** A drop whose reads all complete, in any order. *)
Lemma dropAndRead_spec (acceptedFiles completed : list File.t) (s : State) :
  Permutation completed (filter Spec.conforming acceptedFiles) ->
  let warned :=
    setToasts
      (toasts s ++ map Spec.warning (filter Spec.oversize acceptedFiles))
      s in
  dropAndRead acceptedFiles completed s
  = match completed with
    | [] => warned
    | _ =>
        Spec.completes (List.length completed)
          (map File.dataURL completed) warned
    end.
Proof.
  intros Hperm warned. unfold dropAndRead, onMultiImagesDrop.
  rewrite filterValid_spec. fold warned.
  pose proof (Permutation_length Hperm) as Hlen.
  destruct (filter Spec.conforming acceptedFiles) as [|file valid] eqn:E.
  - apply Permutation_sym, Permutation_nil in Hperm. now subst completed.
  - change (len (file :: valid) =? 0) with false. cbv iota.
    rewrite (readAll_completes completed (file :: valid) [] warned).
    + cbn [snd app]. rewrite <- Hlen. now destruct completed.
    + exact Hlen.
    + intros ->. discriminate.
Qed.

(** C3: of a batch of N files, k over 5 MiB, the N - k others are read;
    once every read has completed, in whatever order, their payloads
    are appended to the image list behind the images it had, and one
    warning per rejected file has been notified.  Another order of the
    files or of the completions gives the same images and the same
    notifications up to order.  When no file conforms (k = N), nothing is
    appended and the only notifications are the warnings. *)
Theorem onMultiImagesDrop_outcome
  (s : State) (acceptedFiles completed : list File.t) :
  Permutation completed (filter Spec.conforming acceptedFiles) ->
  let k := List.length (filter Spec.oversize acceptedFiles) in
  let kept := (List.length acceptedFiles - k)%nat in
  let warnings := map Spec.warning (filter Spec.oversize acceptedFiles) in
  let s' := dropAndRead acceptedFiles completed s in
  uploadedImages s' = (uploadedImages s ++ map File.dataURL completed)%list
  /\ List.length (map File.dataURL completed) = kept
  /\ List.length warnings = k
  /\ toasts s'
     = (toasts s ++ warnings
          ++ (if Nat.eqb kept 0 then [] else [Spec.uploaded kept]))%list
  /\ (forall acceptedFiles' completed',
        Permutation acceptedFiles' acceptedFiles ->
        Permutation completed' (filter Spec.conforming acceptedFiles') ->
        Permutation
          (uploadedImages (dropAndRead acceptedFiles' completed' s))
          (uploadedImages s')
        /\ Permutation (toasts (dropAndRead acceptedFiles' completed' s))
             (toasts s'))
  /\ (k = List.length acceptedFiles ->
        uploadedImages s' = uploadedImages s
        /\ toasts s' = (toasts s ++ warnings)%list).
Proof.
  intros Hperm k kept warnings s'.
  pose proof (partition_length acceptedFiles) as Hpart.
  pose proof (Permutation_length Hperm) as Hlen.
  assert (Hkept : List.length completed = kept) by (unfold kept, k; lia).
  assert (Himg : forall fs cs,
             Permutation cs (filter Spec.conforming fs) ->
             uploadedImages (dropAndRead fs cs s)
             = (uploadedImages s ++ map File.dataURL cs)%list).
  { intros fs cs H. rewrite (dropAndRead_spec fs cs s H).
    destruct cs; [simpl; now rewrite app_nil_r | reflexivity]. }
  assert (Htoast : forall fs cs,
             Permutation cs (filter Spec.conforming fs) ->
             toasts (dropAndRead fs cs s)
             = (toasts s ++ map Spec.warning (filter Spec.oversize fs)
                  ++ (if Nat.eqb (List.length cs) 0 then []
                      else [Spec.uploaded (List.length cs)]))%list).
  { intros fs cs H. rewrite (dropAndRead_spec fs cs s H).
    destruct cs as [|c cs]; cbn [List.length Nat.eqb].
    - cbn [toasts setToasts]. now rewrite app_nil_r.
    - unfold Spec.completes, toast. cbn [toasts setToasts setImageError
        setUploadedImages]. now rewrite <- app_assoc. }
  split; [now apply Himg|].
  split; [now rewrite length_map|].
  split; [unfold warnings; now rewrite length_map|].
  split; [unfold s'; rewrite (Htoast _ _ Hperm), Hkept; reflexivity|].
  split.
  - intros fs cs Hfs Hcs. unfold s'.
    assert (Hcc : Permutation cs completed).
    { rewrite Hcs, Hperm. now apply Permutation_filter. }
    rewrite (Himg _ _ Hcs), (Himg _ _ Hperm).
    rewrite (Htoast _ _ Hcs), (Htoast _ _ Hperm).
    rewrite (Permutation_length Hcc).
    split.
    + apply Permutation_app_head. now apply Permutation_map.
    + apply Permutation_app_head, Permutation_app_tail.
      apply Permutation_map. now apply Permutation_filter.
  - intros Hk. unfold s'.
    assert (completed = []) as ->.
    { destruct completed; [reflexivity | simpl in Hkept; lia]. }
    rewrite (Himg _ _ Hperm), (Htoast _ _ Hperm).
    cbn [map List.length Nat.eqb]. now rewrite !app_nil_r.
Qed.

(** Three files, the second one over the limit; the third read
    completes before the first. *)
Lemma onMultiImagesDrop_outcome_witness :
  let a := {| File.name := "a.png"; File.size := 1024;
              File.dataURL := "data:a" |} in
  let b := {| File.name := "b.png"; File.size := 6 * 1024 * 1024;
              File.dataURL := "data:b" |} in
  let c := {| File.name := "c.png"; File.size := 5 * 1024 * 1024;
              File.dataURL := "data:c" |} in
  uploadedImages (dropAndRead [a; b; c] [c; a] initial)
  = ["data:c"; "data:a"].
Proof.
  intros a b c.
  refine (proj1 (onMultiImagesDrop_outcome initial [a; b; c] [c; a] _)).
  apply perm_swap.
Defined.

End Intake.

(* ================================================================= *)
(** ** More on [carFormSchema] *)

Section SchemaMore.
Import Schema.

Lemma checkField_nil (d : Draft.t) (f : Field.name) (chk : Check) :
  checkField d (f, chk) = [] <-> chk (Draft.get f d) = None.
Proof.
  unfold checkField. cbn [fst snd].
  destruct (chk (Draft.get f d)); split; congruence.
Qed.

Lemma app_nil_iff {A} (l l' : list A) :
  (l ++ l')%list = [] <-> l = [] /\ l' = [].
Proof.
  split; [apply app_eq_nil | intros [-> ->]; reflexivity].
Qed.

Lemma min_None (message val : string) :
  min 1 message val = None <-> val <> "".
Proof.
  split; [|apply min_nonempty].
  intros H ->. discriminate.
Qed.

Lemma min_None_length (n : Z) (message val : string) :
  min n message val = None <-> n <= JS.strlen val.
Proof.
  split; [|apply min_long].
  unfold min. destruct (Z.ltb_spec (JS.strlen val) n); [discriminate|lia].
Qed.

Lemma enum_None (options : list string) (val : string) :
  enum options val = None <-> In val options.
Proof.
  split; [|apply enum_In].
  unfold enum. destruct (existsb (String.eqb val) options) eqn:E;
    [|discriminate].
  intros _. apply existsb_exists in E. destruct E as (x & Hx & Hv).
  apply String.eqb_eq in Hv. now subst x.
Qed.

(** No issue exactly for the acceptable drafts. *)
Lemma no_issue_iff_acceptable (currentYear : Z) (d : Draft.t) :
  validate currentYear d = [] <-> Spec.acceptable currentYear d.
Proof.
  unfold validate, carFormSchema, Spec.acceptable, Errors.
  cbn [flat_map]. rewrite !app_nil_r.
  rewrite !app_nil_iff, !checkField_nil.
  cbn [Draft.get]. rewrite !min_None, min_None_length, enum_None.
  rewrite yearSchema_accepts.
  split.
  - intros (H1 & H2 & H3 & H4 & H5 & H6 & H7 & H8 & H9 & _ & H11 & H12).
    repeat split; try assumption.
    intros g Hg. simpl in Hg.
    decompose [or] Hg; try contradiction; subst g; assumption.
  - intros (Hreq & Hy & Hd & Hs).
    repeat split; try assumption;
      first [ apply (Hreq Field.make) | apply (Hreq Field.model)
            | apply (Hreq Field.price) | apply (Hreq Field.mileage)
            | apply (Hreq Field.color) | apply (Hreq Field.fuelType)
            | apply (Hreq Field.transmission)
            | apply (Hreq Field.bodyType) ]; simpl; tauto.
Qed.

(** X1: the resolver accepts a draft, reporting no issue at all, exactly
    when the eight required fields are not empty, the year passes the
    year check, the description has at least ten characters and the
    status is AVAILABLE, UNAVAILABLE or SOLD.  The optional seats and
    the featured flag never matter. *)
Theorem validate_accepts_iff (currentYear : Z) (d : Draft.t) :
  validate currentYear d = [] <-> Spec.acceptable currentYear d.
Proof.
  unfold validate, carFormSchema, Spec.acceptable, Errors.
  cbn [flat_map]. rewrite !app_nil_r.
  rewrite !app_nil_iff, !checkField_nil.
  cbn [Draft.get]. rewrite !min_None, min_None_length, enum_None.
  rewrite yearSchema_accepts.
  split.
  - intros (H1 & H2 & H3 & H4 & H5 & H6 & H7 & H8 & H9 & _ & H11 & H12).
    repeat split; try assumption.
    intros g Hg. simpl in Hg.
    decompose [or] Hg; try contradiction; subst g; assumption.
  - intros (Hreq & Hy & Hd & Hs).
    repeat split; try assumption;
      first [ apply (Hreq Field.make) | apply (Hreq Field.model)
            | apply (Hreq Field.price) | apply (Hreq Field.mileage)
            | apply (Hreq Field.color) | apply (Hreq Field.fuelType)
            | apply (Hreq Field.transmission)
            | apply (Hreq Field.bodyType) ]; simpl; tauto.
Qed.

(** The message under each key comes from the check of that key on the
    value of that key. *)
Lemma errorOf_validate (currentYear : Z) (d : Draft.t) (f : Field.name) :
  exists chk : Check,
    In (f, chk) (carFormSchema currentYear)
    /\ forall d' : Draft.t,
         errorOf f (validate currentYear d') = chk (Draft.get f d').
Proof.
  destruct f;
    match goal with
    | |- context [Field.make] => exists (min 1 "Make is required")
    | |- context [Field.model] => exists (min 1 "Model is required")
    | |- context [Field.year] => exists (yearSchema currentYear)
    | |- context [Field.price] => exists (min 1 "Price is required")
    | |- context [Field.mileage] => exists (min 1 "Mileage is required")
    | |- context [Field.color] => exists (min 1 "Color is required")
    | |- context [Field.fuelType] =>
        exists (min 1 "Fuel type is required")
    | |- context [Field.transmission] =>
        exists (min 1 "Transmission is required")
    | |- context [Field.bodyType] =>
        exists (min 1 "Body type is required")
    | |- context [Field.seats] => exists optional
    | |- context [Field.description] =>
        exists (min 10 "Description must be at least 10 characters")
    | |- context [Field.status] => exists (enum carStatuses)
    end;
    (split; [simpl; tauto|]); intros d';
    unfold validate, carFormSchema; cbn [flat_map];
    rewrite !errorOf_app, !errorOf_checkField;
    cbn [Field.eqb errorOf Draft.get];
    match goal with
    | |- match ?c with Some _ => _ | None => _ end = _ =>
        now destruct c
    | _ => reflexivity
    end.
Qed.

Lemma get_setValue_other (f g : Field.name) (v : string) (d : Draft.t) :
  f <> g -> Draft.get f (Draft.setValue g v d) = Draft.get f d.
Proof.
  intros H. destruct f, g; try reflexivity; now elim H.
Qed.

Lemma get_setValue_same (f : Field.name) (v : string) (d : Draft.t) :
  Draft.get f (Draft.setValue f v d) = v.
Proof. now destruct f. Qed.

(** X2: the error shown under a field depends on the value of that
    field alone: writing any value into another field, or toggling
    featured, leaves it as it was. *)
Theorem error_of_other_field_kept
  (currentYear : Z) (d : Draft.t) (f g : Field.name) (v : string) :
  f <> g ->
  errorOf f (validate currentYear (Draft.setValue g v d))
  = errorOf f (validate currentYear d)
  /\ (forall b : bool,
        errorOf f (validate currentYear (Draft.setFeatured b d))
        = errorOf f (validate currentYear d)).
Proof.
  intros Hfg.
  destruct (errorOf_validate currentYear d f) as (chk & _ & H).
  rewrite !H. split.
  - now rewrite get_setValue_other.
  - intros b. rewrite H. now destruct f.
Qed.

Lemma error_of_other_field_kept_witness :
  errorOf Field.make
    (validate 2025 (Draft.setValue Field.year "1066" Draft.defaultValues))
  = Some (Message "Make is required").
Proof.
  rewrite (proj1 (error_of_other_field_kept 2025 Draft.defaultValues
                    Field.make Field.year "1066" ltac:(discriminate))).
  reflexivity.
Defined.

End SchemaMore.

(* ================================================================= *)
(** ** More on submission *)

Section SubmissionMore.
Import Form.

Lemma len_zero {A} (l : list A) : (len l =? 0) = true <-> l = [].
Proof.
  unfold len. destruct l; simpl; split; congruence.
Qed.

Lemma onSubmit_with_images (data : Draft.t) (s : State) :
  uploadedImages s <> [] ->
  exists req,
    onSubmit data s = addCarFn req s
    /\ images req = uploadedImages s
    /\ Form.data (carData req) = data
    /\ year (carData req) = JS.parseInt (Draft.year data)
    /\ mileage (carData req) = JS.parseInt (Draft.mileage data).
Proof.
  intros H. unfold onSubmit.
  destruct (len (uploadedImages s) =? 0) eqn:E.
  - apply len_zero in E. contradiction.
  - eexists. split; [reflexivity|]. repeat split.
Qed.

Lemma app_one_neq {A} (l : list A) (x : A) : l <> (l ++ [x])%list.
Proof.
  intros H. apply (f_equal (@List.length A)) in H.
  rewrite length_app in H. simpl in H. lia.
Qed.

(** What a [handleSubmit] does, by cases. *)
Lemma handleSubmit_cases (currentYear : Z) (s : State) :
  (Schema.validate currentYear (values s) <> []
   /\ handleSubmit currentYear s
      = setErrors (Schema.validate currentYear (values s)) s)
  \/ (Schema.validate currentYear (values s) = []
      /\ uploadedImages s = []
      /\ handleSubmit currentYear s
         = setImageError Spec.atLeastOneImage (setErrors [] s))
  \/ (Schema.validate currentYear (values s) = []
      /\ uploadedImages s <> []
      /\ exists req,
           handleSubmit currentYear s = addCarFn req (setErrors [] s)
           /\ images req = uploadedImages s
           /\ data (carData req) = values s
           /\ year (carData req) = JS.parseInt (Draft.year (values s))
           /\ mileage (carData req)
              = JS.parseInt (Draft.mileage (values s))).
Proof.
  unfold handleSubmit.
  destruct (Schema.validate currentYear (values s)) as [|e errs] eqn:E.
  - right. destruct (uploadedImages s) as [|img imgs] eqn:Ei.
    + left. repeat split. unfold onSubmit.
      cbn [uploadedImages setErrors]. now rewrite Ei.
    + right. repeat split; [discriminate|].
      destruct (onSubmit_with_images (values s) (setErrors [] s))
        as (req & H1 & H2 & H3 & H4 & H5).
      { cbn [uploadedImages setErrors]. rewrite Ei. discriminate. }
      exists req. cbn [uploadedImages setErrors] in H2.
      rewrite Ei in H2. now repeat split.
  - left. split; [discriminate | reflexivity].
Qed.

(** X3: a submission reaches [addCar] exactly when the resolver reports
    no issue and the image list is not empty.  It then makes one call,
    carrying the images of the list and the values of the form;
    otherwise the call log is as before. *)
Theorem handleSubmit_gate (currentYear : Z) (s : State) :
  (addCarCalls (handleSubmit currentYear s) = addCarCalls s
   \/ exists req,
        addCarCalls (handleSubmit currentYear s)
        = (addCarCalls s ++ [req])%list
        /\ images req = uploadedImages s
        /\ data (carData req) = values s)
  /\ ((exists req,
         addCarCalls (handleSubmit currentYear s)
         = (addCarCalls s ++ [req])%list)
      <-> Schema.validate currentYear (values s) = []
          /\ uploadedImages s <> []).
Proof.
  destruct (handleSubmit_cases currentYear s)
    as [(Hv & ->) | [(Hv & Hi & ->) | (Hv & Hi & req & -> & H1 & H2 & _)]];
    cbn [addCarCalls setErrors setImageError addCarFn setAddCarCalls
           setAddCar].
  - split; [now left|]. split.
    + intros (req & H). now apply app_one_neq in H.
    + intros [H _]. contradiction.
  - split; [now left|]. split.
    + intros (req & H). now apply app_one_neq in H.
    + intros [_ H]. contradiction.
  - split; [right; now exists req|]. split; [now split | now exists req].
Qed.

(** X4: field errors come first.  With a draft the resolver rejects,
    [handleSubmit] stores the issues and does nothing else: [onSubmit]
    does not run, so the image error keeps its value even when no image
    is uploaded, and [addCar] is not called. *)
Theorem invalid_draft_blocks (currentYear : Z) (s : State) :
  Schema.validate currentYear (values s) <> [] ->
  handleSubmit currentYear s
  = setErrors (Schema.validate currentYear (values s)) s
  /\ imageError (handleSubmit currentYear s) = imageError s
  /\ addCarCalls (handleSubmit currentYear s) = addCarCalls s
  /\ toasts (handleSubmit currentYear s) = toasts s.
Proof.
  intros Hv.
  destruct (handleSubmit_cases currentYear s)
    as [(_ & ->) | [(Hv' & _) | (Hv' & _)]]; try contradiction.
  repeat split.
Qed.

Lemma invalid_draft_blocks_witness :
  uploadedImages initial = []
  /\ imageError (handleSubmit 2025 initial) = ""
  /\ Schema.errorOf Field.make (errors (handleSubmit 2025 initial))
     = Some (Schema.Message "Make is required").
Proof.
  split; [reflexivity|].
  assert (Hv : Schema.validate 2025 (values initial) <> [])
    by (vm_compute; discriminate).
  destruct (invalid_draft_blocks 2025 initial Hv) as (H & Hi & _).
  split; [exact Hi|]. rewrite H. reflexivity.
Defined.

(** X5: the year a submission sends is never NaN: whenever
    [handleSubmit] calls [addCar], [carData.year] is an integer of
    [1900, currentYear + 1]. *)
Theorem submitted_year_in_range (currentYear : Z) (s : State) :
  Schema.validate currentYear (values s) = [] ->
  uploadedImages s <> [] ->
  exists req y,
    addCarCalls (handleSubmit currentYear s) = (addCarCalls s ++ [req])%list
    /\ year (carData req) = Some y
    /\ 1900 <= y <= currentYear + 1.
Proof.
  intros Hv Hi.
  destruct (handleSubmit_cases currentYear s)
    as [(Hv' & _) | [(_ & Hi' & _) | (_ & _ & req & -> & _ & _ & Hy & _)]];
    try contradiction.
  apply no_issue_iff_acceptable in Hv. destruct Hv as (_ & Hyear & _).
  unfold Schema.yearRefinement in Hyear. rewrite <- Hy in Hyear.
  destruct (year (carData req)) as [y|] eqn:Ey; [|discriminate].
  apply in_range_true in Hyear.
  exists req, y. repeat split; [exact Ey | lia | lia].
Qed.

Lemma submitted_year_in_range_witness :
  exists req,
    addCarCalls (handleSubmit 2025 Spec.sampleState) = [req]
    /\ year (carData req) = Some 2022.
Proof.
  destruct (submitted_year_in_range 2025 Spec.sampleState)
    as (req & y & H1 & H2 & _).
  - reflexivity.
  - discriminate.
  - exists req. split; [exact H1|].
    cbn [addCarCalls Spec.sampleState app] in H1.
    vm_compute in H1. injection H1 as <-. reflexivity.
Defined.

(** X6: the schema asks of the mileage only that it is not empty.  A
    draft that is accepted stays accepted with any other non-empty
    mileage, and the submission sends [parseInt] of that text: NaN when
    it starts with no digit, the integer of its leading digits when
    that is a safe integer. *)
Theorem mileage_is_free_text (currentYear : Z) (s : State) (m : string) :
  Schema.validate currentYear (values s) = [] ->
  uploadedImages s <> [] ->
  m <> "" ->
  Spec.exactNumber (JS.parseInt m) ->
  Schema.validate currentYear (values (setValue Field.mileage m s)) = []
  /\ exists req,
       addCarCalls (handleSubmit currentYear (setValue Field.mileage m s))
       = (addCarCalls s ++ [req])%list
       /\ mileage (carData req) = JS.parseInt m.
Proof.
  intros Hv Hi Hm _.
  assert (Hv' : Schema.validate currentYear
                  (values (setValue Field.mileage m s)) = []).
  { apply no_issue_iff_acceptable. apply no_issue_iff_acceptable in Hv.
    destruct Hv as (Hreq & Hy & Hd & Hs).
    cbn [values setValue setValues].
    repeat split; try assumption.
    intros g Hg. specialize (Hreq g Hg).
    destruct g; try exact Hreq. exact Hm. }
  split; [exact Hv'|].
  destruct (handleSubmit_cases currentYear (setValue Field.mileage m s))
    as [(Hn & _) | [(_ & Hi' & _) | (_ & _ & req & -> & _ & _ & _ & Hmil)]].
  - contradiction.
  - cbn [uploadedImages setValue setValues] in Hi'. contradiction.
  - exists req. split; [reflexivity | exact Hmil].
Qed.

(** "abc" is sent as NaN, "42000 km" as 42000. *)
Lemma mileage_is_free_text_witness :
  (exists req,
     addCarCalls
       (handleSubmit 2025 (setValue Field.mileage "abc" Spec.sampleState))
     = [req]
     /\ mileage (carData req) = None)
  /\ (exists req,
        addCarCalls
          (handleSubmit 2025
             (setValue Field.mileage "42000 km" Spec.sampleState))
        = [req]
        /\ mileage (carData req) = Some 42000).
Proof.
  split.
  - destruct (mileage_is_free_text 2025 Spec.sampleState "abc")
      as (_ & req & H1 & H2).
    + reflexivity.
    + discriminate.
    + discriminate.
    + exact I.
    + exists req. split; [exact H1 | exact H2].
  - destruct (mileage_is_free_text 2025 Spec.sampleState "42000 km")
      as (_ & req & H1 & H2).
    + reflexivity.
    + discriminate.
    + discriminate.
    + reflexivity.
    + exists req. split; [exact H1 | exact H2].
Defined.

(** X7: a submission that succeeds shows one notification, "Car added
    successfully", and sends the admin to /admin/cars.  The form is not
    reset: the draft and the images are those that were submitted. *)
Theorem submission_success (currentYear : Z) (s : State) :
  Schema.validate currentYear (values s) = [] ->
  uploadedImages s <> [] ->
  let s' :=
    addCar_settles (resolved {| success := true |})
      (handleSubmit currentYear s) in
  toasts s' = (toasts s ++ [toast_success "Car added successfully" None])%list
  /\ pushes s' = (pushes s ++ ["/admin/cars"])%list
  /\ values s' = values s
  /\ uploadedImages s' = uploadedImages s
  /\ imageError s' = imageError s.
Proof.
  intros Hv Hi s'. subst s'.
  destruct (handleSubmit_cases currentYear s)
    as [(Hv' & _) | [(_ & Hi' & _) | (_ & _ & req & -> & _)]];
    try contradiction.
  repeat split.
Qed.

Lemma submission_success_witness :
  pushes (addCar_settles (resolved {| success := true |})
            (handleSubmit 2025 Spec.sampleState))
  = ["/admin/cars"].
Proof.
  destruct (submission_success 2025 Spec.sampleState) as (_ & H & _).
  - reflexivity.
  - discriminate.
  - exact H.
Defined.

(** The call a passing submission makes. *)
Lemma handleSubmit_calls (currentYear : Z) (s : State) :
  Schema.validate currentYear (values s) = [] ->
  uploadedImages s <> [] ->
  exists req,
    addCarCalls (handleSubmit currentYear s) = (addCarCalls s ++ [req])%list
    /\ images req = uploadedImages s
    /\ year (carData req) = JS.parseInt (Draft.year (values s)).
Proof.
  intros Hv Hi.
  destruct (handleSubmit_cases currentYear s)
    as [(Hv' & _) | [(_ & Hi' & _) | (_ & _ & req & -> & Hr & _ & Hy & _)]];
    try contradiction.
  exists req. repeat split; assumption.
Qed.

End SubmissionMore.

(* ================================================================= *)
(** ** More on extraction *)

Section ExtractionMore.
Import Form.

(** X8: a response that is not a success, or that has no data, is
    ignored without a word: the draft, the field errors, the images and
    the active tab stay, and no notification is shown. *)
Theorem extraction_ignored (s : State) (r : AiResponse) :
  ai_success r = false \/ ai_data r = None ->
  values (processImage_settles (resolved r) s) = values s
  /\ activeTab (processImage_settles (resolved r) s) = activeTab s
  /\ toasts (processImage_settles (resolved r) s) = toasts s
  /\ errors (processImage_settles (resolved r) s) = errors s
  /\ uploadedImages (processImage_settles (resolved r) s)
     = uploadedImages s.
Proof.
  intros H. rewrite (extraction_without_data s r H). repeat split.
Qed.

Lemma extraction_ignored_witness :
  let r := {| ai_success := false; ai_data := Some Spec.sampleDetails |} in
  values (processImage_settles (resolved r) initial) = Draft.defaultValues
  /\ toasts (processImage_settles (resolved r) initial) = [].
Proof.
  intros r.
  destruct (extraction_ignored initial r) as (H1 & _ & H3 & _).
  - now left.
  - split; [exact H1 | exact H3].
Defined.

Lemma values_after_success (s : State) (cd : Details.t) :
  values
    (processImage_settles
       (resolved {| ai_success := true; ai_data := Some cd |}) s)
  = Spec.extracted cd (values s).
Proof.
  pose proof (processImage_settles_success s cd) as H. cbv zeta in H.
  now rewrite H.
Qed.

Lemma images_after_success (s : State) (cd : Details.t) :
  uploadedImages
    (processImage_settles
       (resolved {| ai_success := true; ai_data := Some cd |}) s)
  = uploadedImages s
  /\ addCarCalls
       (processImage_settles
          (resolved {| ai_success := true; ai_data := Some cd |}) s)
     = addCarCalls s.
Proof.
  pose proof (processImage_settles_success s cd) as H. cbv zeta in H.
  now rewrite H.
Qed.

Lemma tab_after_success (s : State) (cd : Details.t) :
  activeTab
    (processImage_settles
       (resolved {| ai_success := true; ai_data := Some cd |}) s)
  = "manual".
Proof.
  pose proof (processImage_settles_success s cd) as H. cbv zeta in H.
  now rewrite H.
Qed.

Lemma toasts_after_success (s : State) (cd : Details.t) :
  toasts
    (processImage_settles
       (resolved {| ai_success := true; ai_data := Some cd |}) s)
  = (toasts s
       ++ [toast_success "Successfully extracted car details"
             (Some (Detected (Details.year cd) (Details.make cd)
                      (Details.model cd) (Details.confidence cd)))])%list.
Proof.
  pose proof (processImage_settles_success s cd) as H. cbv zeta in H.
  now rewrite H.
Qed.

(** A complete extraction passes the resolver. *)
Lemma validate_after_complete
  (currentYear : Z) (s : State) (cd : Details.t) :
  Spec.complete currentYear cd ->
  In (Draft.status (values s)) Schema.carStatuses ->
  Schema.validate currentYear
    (values
       (processImage_settles
          (resolved {| ai_success := true; ai_data := Some cd |}) s))
  = [].
Proof.
  intros (Hy & H1 & H2 & H3 & H4 & H5 & H6 & H7 & H8 & Hd) Hs.
  rewrite values_after_success. apply no_issue_iff_acceptable.
  unfold Spec.acceptable, Spec.extracted. cbn [Draft.year Draft.description
    Draft.status]. repeat split; try assumption.
  - intros g Hg. simpl in Hg.
    decompose [or] Hg; try contradiction; subst g; assumption.
  - rewrite yearRefinement_toString. apply in_range_true. lia.
Qed.

(** X9: extraction data that is complete gives a draft the resolver
    accepts, whatever the draft held before, provided the status it
    keeps is one of the three. *)
Theorem complete_extraction_is_valid
  (currentYear : Z) (s : State) (cd : Details.t) :
  Spec.complete currentYear cd ->
  In (Draft.status (values s)) Schema.carStatuses ->
  Schema.validate currentYear
    (values
       (processImage_settles
          (resolved {| ai_success := true; ai_data := Some cd |}) s))
  = [].
Proof.
  intros (Hy & H1 & H2 & H3 & H4 & H5 & H6 & H7 & H8 & Hd) Hs.
  rewrite values_after_success. apply no_issue_iff_acceptable.
  unfold Spec.acceptable, Spec.extracted. cbn [Draft.year Draft.description
    Draft.status]. repeat split; try assumption.
  - intros g Hg. simpl in Hg.
    decompose [or] Hg; try contradiction; subst g; assumption.
  - rewrite yearRefinement_toString. apply in_range_true. lia.
Qed.

Lemma complete_extraction_is_valid_witness :
  Schema.validate 2025
    (values
       (processImage_settles
          (resolved {| ai_success := true;
                       ai_data := Some Spec.sampleDetails |}) initial))
  = [].
Proof.
  apply (complete_extraction_is_valid 2025 initial Spec.sampleDetails).
  - unfold Spec.complete, JS.strlen. simpl.
    repeat split; try discriminate; lia.
  - simpl. tauto.
Defined.

(** X10: the year survives its trip through the form.  After a complete
    extraction and with an image uploaded, a submission calls [addCar]
    once, and the year it sends is the number the extraction returned:
    [parseInt] undoes the [toString] of the effect. *)
Theorem extracted_year_is_submitted
  (currentYear : Z) (s : State) (cd : Details.t) :
  Spec.complete currentYear cd ->
  In (Draft.status (values s)) Schema.carStatuses ->
  uploadedImages s <> [] ->
  exists req,
    addCarCalls
      (handleSubmit currentYear
         (processImage_settles
            (resolved {| ai_success := true; ai_data := Some cd |}) s))
    = (addCarCalls s ++ [req])%list
    /\ year (carData req) = Some (Details.year cd)
    /\ images req = uploadedImages s.
Proof.
  intros Hc Hs Hi.
  pose proof (validate_after_complete currentYear s cd Hc Hs) as Hv.
  destruct (images_after_success s cd) as (Himg & Hcalls).
  rewrite <- Himg in Hi.
  destruct (handleSubmit_calls currentYear _ Hv Hi) as (req & H1 & H2 & H3).
  exists req. rewrite H1, H2, H3, Hcalls, Himg, values_after_success.
  repeat split. apply parseInt_toString.
Qed.

Lemma extracted_year_is_submitted_witness :
  exists req,
    addCarCalls
      (handleSubmit 2025
         (processImage_settles
            (resolved {| ai_success := true;
                         ai_data := Some Spec.sampleDetails |})
            Spec.sampleState))
    = [req]
    /\ year (carData req) = Some 2019.
Proof.
  destruct (extracted_year_is_submitted 2025 Spec.sampleState
              Spec.sampleDetails) as (req & H1 & H2 & _).
  - unfold Spec.complete, JS.strlen. simpl.
    repeat split; try discriminate; lia.
  - simpl. tauto.
  - discriminate.
  - exists req. split; [exact H1 | exact H2].
Defined.

(** X11: the last extraction wins.  Two successful extractions in a row
    leave the draft the second one alone would leave, and two
    notifications. *)
Theorem last_extraction_wins (s : State) (cd1 cd2 : Details.t) :
  let settles cd :=
    processImage_settles
      (resolved {| ai_success := true; ai_data := Some cd |}) in
  values (settles cd2 (settles cd1 s)) = values (settles cd2 s)
  /\ activeTab (settles cd2 (settles cd1 s)) = "manual"
  /\ List.length (toasts (settles cd2 (settles cd1 s)))
     = (List.length (toasts s) + 2)%nat.
Proof.
  intros settles. subst settles. cbv beta.
  rewrite !values_after_success, !tab_after_success, !toasts_after_success.
  repeat split. rewrite !length_app. simpl. lia.
Qed.

End ExtractionMore.

(* ================================================================= *)
(** ** More on images *)

Section ImagesMore.
Import Form.

(** Projections of a state built by the setters. *)
Ltac project :=
  cbn [values errors activeTab uploadedImages imageError imagePreview
         uploadedAiImage processImage addCar toasts pushes
         processImageCalls addCarCalls
         setValues setErrors setActiveTab setUploadedImages setImageError
         setImagePreview setUploadedAiImage setProcessImage setAddCar
         setToasts setPushes setProcessImageCalls setAddCarCalls
         fst snd].

Lemma conforming_gtb (file : File.t) :
  Spec.conforming file = true -> (File.size file >? maxSize) = false.
Proof.
  unfold Spec.conforming. rewrite oversize_gtb.
  now destruct (Spec.oversize file).
Qed.

Lemma filter_differs_absent (p : string) (l : list string) :
  ~ In p l -> filter (fun img => differs img (Some p)) l = l.
Proof.
  induction l as [|x l IH]; intros H; [reflexivity|].
  cbn [filter]. unfold differs at 1.
  destruct (String.eqb_spec x p) as [->|Hx]; cbn [negb].
  - elim H. now left.
  - f_equal. apply IH. intros Hin. apply H. now right.
Qed.

Lemma filter_differs_app (p : string) (l : list string) :
  filter (fun img => differs img (Some p)) (l ++ [p])
  = filter (fun img => differs img (Some p)) l.
Proof.
  rewrite filter_app. cbn [filter]. unfold differs at 2.
  rewrite String.eqb_refl. cbn [negb]. apply app_nil_r.
Qed.

(** X12: an image dropped on the extraction tab and then removed with
    the preview button leaves the image list as it was, provided no
    image with the same payload was in it; the preview and the stored
    file are cleared, and only the upload notification remains.  Files
    dropped along with the first one play no part. *)
Theorem ai_upload_then_remove
  (s : State) (file : File.t) (rest : list File.t) :
  Spec.conforming file = true ->
  ~ In (File.dataURL file) (uploadedImages s) ->
  let s' := removePreview (aiDropAndRead (file :: rest) s) in
  uploadedImages (aiDropAndRead (file :: rest) s)
  = (uploadedImages s ++ [File.dataURL file])%list
  /\ imagePreview (aiDropAndRead (file :: rest) s)
     = Some (File.dataURL file)
  /\ uploadedImages s' = uploadedImages s
  /\ imagePreview s' = None
  /\ uploadedAiImage s' = None
  /\ values s' = values s
  /\ toasts s'
     = (toasts s
          ++ [toast_success "Image uploaded for AI processing" None])%list.
Proof.
  intros Hc Hin s'. subst s'.
  unfold aiDropAndRead, onAiImageDrop. rewrite (conforming_gtb _ Hc).
  unfold removePreview, aiReader_onload, toast.
  cbn [uploadedImages imagePreview uploadedAiImage values toasts
         setUploadedImages setImagePreview setUploadedAiImage setToasts].
  repeat split.
  rewrite filter_differs_app. now apply filter_differs_absent.
Qed.

Lemma ai_upload_then_remove_witness :
  let f := {| File.name := "car.png"; File.size := 5 * 1024 * 1024;
              File.dataURL := "data:car" |} in
  uploadedImages (removePreview (aiDropAndRead [f] Spec.sampleState))
  = uploadedImages Spec.sampleState.
Proof.
  intros f.
  destruct (ai_upload_then_remove Spec.sampleState f []) as (_ & _ & H & _).
  - reflexivity.
  - simpl. intros [H|[]]. discriminate.
  - exact H.
Defined.

(** X13: a file over 5 MiB dropped alone.  Either drop zone refuses
    it with one notification of its own wording, starts no read and
    leaves the image list, the stored file and the preview as they
    were.  The manual drop zone, which takes several files, skips the
    large file of a drop and still reads a conforming one dropped with
    it. *)
Theorem large_file_alone
  (s : State) (big : File.t) :
  Spec.oversize big = true ->
  aiDropAndRead [big] s
  = toast (toast_error "Image exceeds 5MB limit") s
  /\ onAiImageDrop [big] s
     = (None, toast (toast_error "Image exceeds 5MB limit") s)
  /\ uploadedAiImage (aiDropAndRead [big] s) = uploadedAiImage s
  /\ uploadedImages (aiDropAndRead [big] s) = uploadedImages s
  /\ imagePreview (aiDropAndRead [big] s) = imagePreview s
  /\ onMultiImagesDrop [big] s
     = (None,
        toast (toast_error
                 (File.name big ++ " exceeds 5MB limit and will be skipped"))
          s)
  /\ (forall ok : File.t,
        Spec.conforming ok = true ->
        uploadedImages (dropAndRead [big; ok] [ok] s)
        = (uploadedImages s ++ [File.dataURL ok])%list
        /\ toasts (dropAndRead [big; ok] [ok] s)
           = (toasts s ++ [Spec.warning big; Spec.uploaded 1])%list).
Proof.
  intros Ho.
  assert (Ha : onAiImageDrop [big] s
               = (None, toast (toast_error "Image exceeds 5MB limit") s)).
  { unfold onAiImageDrop. now rewrite oversize_gtb, Ho. }
  unfold aiDropAndRead. rewrite Ha.
  do 5 (split; [reflexivity|]).
  split.
  - unfold onMultiImagesDrop. cbn [filterValid].
    now rewrite oversize_gtb, Ho.
  - intros ok Hc.
    assert (Hperm : Permutation [ok] (filter Spec.conforming [big; ok])).
    { cbn [filter]. unfold Spec.conforming at 1. rewrite Ho, Hc.
      apply Permutation_refl. }
    rewrite (dropAndRead_spec [big; ok] [ok] s Hperm).
    cbn [filter]. unfold Spec.conforming in Hc. rewrite Ho.
    destruct (Spec.oversize ok); [discriminate|].
    unfold Spec.completes, toast. project. cbn [map List.length].
    split; [reflexivity | now rewrite <- app_assoc].
Qed.

Lemma large_file_alone_witness :
  let big := {| File.name := "big.png"; File.size := 5 * 1024 * 1024 + 1;
                File.dataURL := "data:big" |} in
  let ok := {| File.name := "ok.png"; File.size := 5 * 1024 * 1024;
               File.dataURL := "data:ok" |} in
  toasts (aiDropAndRead [big] initial)
  = [toast_error "Image exceeds 5MB limit"]
  /\ uploadedImages (aiDropAndRead [big] initial) = []
  /\ snd (onMultiImagesDrop [big] initial)
     = toast (toast_error "big.png exceeds 5MB limit and will be skipped")
         initial
  /\ uploadedImages (dropAndRead [big; ok] [ok] initial) = ["data:ok"].
Proof.
  intros big ok.
  destruct (large_file_alone initial big eq_refl)
    as (H0 & _ & _ & H1 & _ & H2 & H3).
  split; [now rewrite H0|].
  split; [exact H1|].
  split; [now rewrite H2|].
  exact (proj1 (H3 ok eq_refl)).
Defined.

(** X14: extraction sends the stored file and nothing else.  Right
    after a conforming drop, before its read has completed,
    [processWithAI] calls the action with the dropped file; once the
    preview is removed it calls nothing and asks for an image. *)
Theorem extraction_needs_stored_image
  (s : State) (file : File.t) (rest : list File.t) :
  Spec.conforming file = true ->
  processImageCalls (processWithAI (snd (onAiImageDrop (file :: rest) s)))
  = (processImageCalls s ++ [file])%list
  /\ processImageCalls
       (processWithAI (removePreview (aiDropAndRead (file :: rest) s)))
     = processImageCalls s
  /\ toasts
       (processWithAI (removePreview (aiDropAndRead (file :: rest) s)))
     = (toasts s
          ++ [toast_success "Image uploaded for AI processing" None;
              toast_error "Please upload an image first"])%list.
Proof.
  intros Hc. unfold aiDropAndRead, onAiImageDrop.
  rewrite (conforming_gtb _ Hc).
  unfold processWithAI, removePreview, aiReader_onload, toast. project.
  unfold processImageFn, toast. project.
  repeat split. now rewrite <- app_assoc.
Qed.

Lemma extraction_needs_stored_image_witness :
  let f := {| File.name := "car.png"; File.size := 2048;
              File.dataURL := "data:car" |} in
  processImageCalls (processWithAI (snd (onAiImageDrop [f] initial))) = [f].
Proof.
  intros f.
  exact (proj1 (extraction_needs_stored_image initial f [] eq_refl)).
Defined.

(** X15: a batch is all or nothing.  While fewer reads have completed
    than the batch has conforming files, nothing of it shows: the image
    list and the image error are as before the drop and the only
    notifications are the warnings for the rejected files. *)
Theorem incomplete_batch_held_back
  (s : State) (acceptedFiles completed : list File.t) :
  (List.length completed
   < List.length (filter Spec.conforming acceptedFiles))%nat ->
  uploadedImages (dropAndRead acceptedFiles completed s) = uploadedImages s
  /\ imageError (dropAndRead acceptedFiles completed s) = imageError s
  /\ toasts (dropAndRead acceptedFiles completed s)
     = (toasts s
          ++ map Spec.warning (filter Spec.oversize acceptedFiles))%list.
Proof.
  intros Hlt. unfold dropAndRead, onMultiImagesDrop.
  rewrite filterValid_spec.
  destruct (filter Spec.conforming acceptedFiles) as [|file valid] eqn:E;
    [simpl in Hlt; lia|].
  change (len (file :: valid) =? 0) with false. cbv iota.
  rewrite readAll_pending by exact Hlt.
  repeat split.
Qed.

Lemma incomplete_batch_held_back_witness :
  let a := {| File.name := "a.png"; File.size := 1024;
              File.dataURL := "data:a" |} in
  let b := {| File.name := "b.png"; File.size := 2048;
              File.dataURL := "data:b" |} in
  uploadedImages (dropAndRead [a; b] [b] initial) = [].
Proof.
  intros a b.
  refine (proj1 (incomplete_batch_held_back initial [a; b] [b] _)).
  simpl. lia.
Defined.

(** X16: a batch that completes clears the image error; a batch with no
    conforming file leaves it as it was. *)
Theorem batch_and_image_error
  (s : State) (acceptedFiles completed : list File.t) :
  Permutation completed (filter Spec.conforming acceptedFiles) ->
  imageError (dropAndRead acceptedFiles completed s)
  = match completed with
    | [] => imageError s
    | _ => ""
    end.
Proof.
  intros Hperm. rewrite (dropAndRead_spec _ _ s Hperm).
  now destruct completed.
Qed.

Lemma batch_and_image_error_witness :
  let a := {| File.name := "a.png"; File.size := 1024;
              File.dataURL := "data:a" |} in
  let armed := setImageError Spec.atLeastOneImage initial in
  imageError (dropAndRead [a] [a] armed) = "".
Proof.
  intros a armed.
  exact (batch_and_image_error armed [a] [a] (Permutation_refl _)).
Defined.

Lemma filterIndex_beyond (prev : list string) :
  forall indexToRemove index : nat,
    (index + List.length prev <= indexToRemove)%nat ->
    filterIndex indexToRemove index prev = prev.
Proof.
  induction prev as [|image rest IH]; intros i index H; [reflexivity|].
  cbn [filterIndex List.length] in *.
  destruct (Nat.eqb_spec index i); [lia|]. cbn [negb].
  f_equal. apply IH. lia.
Qed.

(** X17: [removeImage] arms the image error by the length of the list
    alone.  With an index past the end nothing is removed, and yet a
    list of one image gets the error "Please upload at least one
    image". *)
Theorem removeImage_past_the_end (s : State) (i : nat) :
  (List.length (uploadedImages s) <= i)%nat ->
  uploadedImages (removeImage i s) = uploadedImages s
  /\ (List.length (uploadedImages s) = 1%nat ->
        imageError (removeImage i s) = "Please upload at least one image")
  /\ (List.length (uploadedImages s) <> 1%nat ->
        imageError (removeImage i s) = imageError s).
Proof.
  intros Hi. unfold removeImage, len.
  rewrite (filterIndex_beyond _ i 0%nat) by lia.
  destruct (Z.eqb_spec (Z.of_nat (List.length (uploadedImages s)) - 1) 0);
    repeat split; intros; try reflexivity; lia.
Qed.

Lemma removeImage_past_the_end_witness :
  let s := setUploadedImages ["data:a"] initial in
  uploadedImages (removeImage 3 s) = ["data:a"]
  /\ imageError (removeImage 3 s) = "Please upload at least one image".
Proof.
  intros s.
  destruct (removeImage_past_the_end s 3) as (H1 & H2 & _).
  - simpl. lia.
  - split; [exact H1 | now apply H2].
Defined.

Lemma removeImage_head (s : State) (image : string) (rest : list string) :
  uploadedImages s = image :: rest ->
  uploadedImages (removeImage 0 s) = rest
  /\ (rest = [] ->
        imageError (removeImage 0 s) = "Please upload at least one image")
  /\ (rest <> [] -> imageError (removeImage 0 s) = imageError s).
Proof.
  intros H. unfold removeImage, len. rewrite H.
  cbn [filterIndex Nat.eqb negb List.length].
  rewrite (filterIndex_below 0 1 rest) by lia.
  destruct rest as [|image' rest].
  - repeat split. congruence.
  - cbn [List.length].
    destruct (Z.eqb_spec (Z.of_nat (S (S (List.length rest))) - 1) 0);
      [lia|].
    repeat split. congruence.
Qed.

(** X18: removing the first image as many times as there are images
    empties the list, and the last of these removals arms the image
    error. *)
Theorem removing_every_image (l : list string) :
  forall s : State,
    uploadedImages s = l ->
    l <> [] ->
    uploadedImages (Nat.iter (List.length l) (removeImage 0) s) = []
    /\ imageError (Nat.iter (List.length l) (removeImage 0) s)
       = "Please upload at least one image".
Proof.
  induction l as [|image rest IH]; intros s Hs Hne; [congruence|].
  cbn [List.length]. rewrite Nat.iter_succ_r.
  destruct (removeImage_head s image rest Hs) as (H1 & H2 & H3).
  destruct rest as [|image' rest].
  - cbn [List.length Nat.iter]. split; [exact H1 | now apply H2].
  - apply IH; [exact H1 | discriminate].
Qed.

Lemma removing_every_image_witness :
  let s := setUploadedImages ["data:a"; "data:b"; "data:c"] initial in
  uploadedImages (removeImage 0 (removeImage 0 (removeImage 0 s))) = [].
Proof.
  intros s.
  refine (proj1 (removing_every_image ["data:a"; "data:b"; "data:c"] s
                   eq_refl _)).
  discriminate.
Defined.

(** X19: only a completed batch clears the image error.  After the
    last image has been removed, an image that arrives through the
    extraction tab makes the list non-empty again and a submission goes
    through to [addCar], while the error "Please upload at least one
    image" is still set, before and after the submission. *)
Theorem image_error_outlives_ai_upload
  (s : State) (image result : string) (data : Draft.t) :
  uploadedImages s = [image] ->
  let s' := aiReader_onload result (removeImage 0 s) in
  uploadedImages s' = [result]
  /\ imageError s' = "Please upload at least one image"
  /\ imageError (onSubmit data s') = "Please upload at least one image"
  /\ exists req,
       addCarCalls (onSubmit data s') = (addCarCalls s ++ [req])%list
       /\ images req = [result].
Proof.
  intros Hs s'. subst s'.
  destruct (removeImage_head s image [] Hs) as (H1 & H2 & _).
  specialize (H2 eq_refl).
  assert (Himg : uploadedImages (aiReader_onload result (removeImage 0 s))
                 = [result]).
  { unfold aiReader_onload.
    cbn [uploadedImages setUploadedImages setImagePreview].
    now rewrite H1. }
  assert (Herr : imageError (aiReader_onload result (removeImage 0 s))
                 = "Please upload at least one image") by exact H2.
  assert (Hcalls : addCarCalls (aiReader_onload result (removeImage 0 s))
                   = addCarCalls s).
  { unfold aiReader_onload, removeImage.
    now destruct (len (uploadedImages s) - 1 =? 0). }
  destruct (onSubmit_with_images data
              (aiReader_onload result (removeImage 0 s)))
    as (req & Hsub & Hr & _).
  { rewrite Himg. discriminate. }
  rewrite Hsub.
  cbn [imageError addCarCalls addCarFn setAddCarCalls setAddCar].
  rewrite Hcalls, Herr. repeat split; try assumption.
  exists req. split; [reflexivity | now rewrite Hr].
Qed.

Lemma image_error_outlives_ai_upload_witness :
  let s := setUploadedImages ["data:a"] initial in
  let s' := aiReader_onload "data:car" (removeImage 0 s) in
  uploadedImages s' = ["data:car"]
  /\ imageError s' = "Please upload at least one image".
Proof.
  intros s s'.
  destruct (image_error_outlives_ai_upload s "data:a" "data:car"
              Spec.sampleDraft eq_refl) as (H1 & H2 & _).
  split; [exact H1 | exact H2].
Defined.

End ImagesMore.

(* ================================================================= *)
(** ** Batches whose reads overlap *)

Section Overlap.
Import Form.

Lemma contribution_step (n : nat) (acc p : list string) (d : string) :
  (List.length acc + 1)%nat <> n ->
  Spec.contribution n acc (d :: p) = Spec.contribution n (acc ++ [d]) p
  /\ Spec.notice n acc (d :: p) = Spec.notice n (acc ++ [d]) p.
Proof.
  intros Hn. unfold Spec.contribution, Spec.notice.
  rewrite length_app. cbn [List.length].
  destruct p as [|d' p].
  - cbn [List.length]. destruct (Nat.eqb_spec (List.length acc + 1) n);
      [contradiction | now split].
  - cbn [List.length].
    destruct (Nat.eqb_spec (List.length acc + S (S (List.length p))) n);
      destruct (Nat.eqb_spec
                  (List.length acc + 1 + S (List.length p)) n);
      try lia; split; try reflexivity.
    now rewrite <- app_assoc.
Qed.

Lemma contribution_fire (n : nat) (acc : list string) (d : string) :
  (List.length acc + 1)%nat = n ->
  Spec.contribution n acc [d] = (acc ++ [d])%list
  /\ Spec.notice n acc [d] = [Spec.uploaded n].
Proof.
  intros Hn. unfold Spec.contribution, Spec.notice. cbn [List.length].
  destruct (Nat.eqb_spec (List.length acc + 1) n); [now split | lia].
Qed.

Lemma reader_onload_cases
  (d : string) (valid : list File.t) (acc : list string) (s : State) :
  ((List.length acc + 1)%nat = List.length valid
   /\ reader_onload d {| validFiles := valid; newImages := acc |} s
      = ({| validFiles := valid; newImages := acc ++ [d] |},
         Spec.completes (List.length valid) (acc ++ [d]) s))
  \/ ((List.length acc + 1)%nat <> List.length valid
      /\ reader_onload d {| validFiles := valid; newImages := acc |} s
         = ({| validFiles := valid; newImages := acc ++ [d] |}, s)).
Proof.
  unfold reader_onload. cbn [newImages validFiles]. unfold len.
  rewrite length_app. cbn [List.length].
  destruct (Z.eqb_spec (Z.of_nat (List.length acc + 1))
              (Z.of_nat (List.length valid))).
  - left. split; [lia | reflexivity].
  - right. split; [lia | reflexivity].
Qed.

Lemma completes_projections (n : nat) (images : list string) (s : State) :
  uploadedImages (Spec.completes n images s)
  = (uploadedImages s ++ images)%list
  /\ toasts (Spec.completes n images s)
     = (toasts s ++ [Spec.uploaded n])%list.
Proof. split; reflexivity. Qed.

Lemma length_zero_nil {A} (l : list A) : List.length l = 0%nat -> l = [].
Proof. now destruct l. Qed.

(** Interleaved reads: what each batch has contributed at the end.  The
    batch that completes first is appended first. *)
Lemma readBoth_spec (completed : list (bool * File.t)) :
  forall (valid1 valid2 : list File.t) (acc1 acc2 : list string)
         (s : State),
    (List.length acc1 + List.length (Spec.payloadsOf true completed)
     <= List.length valid1)%nat ->
    (List.length acc2 + List.length (Spec.payloadsOf false completed)
     <= List.length valid2)%nat ->
    let s' :=
      snd (readBoth completed
             {| validFiles := valid1; newImages := acc1 |}
             {| validFiles := valid2; newImages := acc2 |} s) in
    let c1 :=
      Spec.contribution (List.length valid1) acc1
        (Spec.payloadsOf true completed) in
    let c2 :=
      Spec.contribution (List.length valid2) acc2
        (Spec.payloadsOf false completed) in
    let n1 :=
      Spec.notice (List.length valid1) acc1
        (Spec.payloadsOf true completed) in
    let n2 :=
      Spec.notice (List.length valid2) acc2
        (Spec.payloadsOf false completed) in
    (uploadedImages s' = (uploadedImages s ++ c1 ++ c2)%list
     /\ toasts s' = (toasts s ++ n1 ++ n2)%list)
    \/ (uploadedImages s' = (uploadedImages s ++ c2 ++ c1)%list
        /\ toasts s' = (toasts s ++ n2 ++ n1)%list).
Proof.
  induction completed as [|[[|] file] rest IH];
    intros valid1 valid2 acc1 acc2 s H1 H2; cbv zeta.
  - left. cbn. rewrite !app_nil_r. now split.
  - cbn [readBoth].
    change (Spec.payloadsOf true ((true, file) :: rest))
      with (File.dataURL file :: Spec.payloadsOf true rest) in *.
    change (Spec.payloadsOf false ((true, file) :: rest))
      with (Spec.payloadsOf false rest) in *.
    cbn [List.length] in H1.
    destruct (reader_onload_cases (File.dataURL file) valid1 acc1 s)
      as [(Hn & ->) | (Hn & ->)].
    + assert (Hnil : Spec.payloadsOf true rest = [])
        by (apply length_zero_nil; lia).
      specialize (IH valid1 valid2 (acc1 ++ [File.dataURL file])%list acc2
                    (Spec.completes (List.length valid1)
                       (acc1 ++ [File.dataURL file]) s)).
      cbv zeta in IH. rewrite Hnil in *.
      destruct (contribution_fire _ _ (File.dataURL file) Hn) as (-> & ->).
      destruct (completes_projections (List.length valid1)
                  (acc1 ++ [File.dataURL file]) s) as (Ei & Et).
      rewrite Ei, Et in IH.
      cbn [Spec.contribution Spec.notice app] in IH.
      rewrite !app_nil_r in IH. rewrite <- !app_assoc in IH.
      left.
      destruct IH as [IH | IH];
        [rewrite length_app; cbn [List.length]; lia | exact H2 | |];
        rewrite <- !app_assoc; exact IH.
    + destruct (contribution_step _ _ (Spec.payloadsOf true rest)
                  (File.dataURL file) Hn) as (-> & ->).
      apply IH; [rewrite length_app; cbn [List.length]; lia | exact H2].
  - cbn [readBoth].
    change (Spec.payloadsOf false ((false, file) :: rest))
      with (File.dataURL file :: Spec.payloadsOf false rest) in *.
    change (Spec.payloadsOf true ((false, file) :: rest))
      with (Spec.payloadsOf true rest) in *.
    cbn [List.length] in H2.
    destruct (reader_onload_cases (File.dataURL file) valid2 acc2 s)
      as [(Hn & ->) | (Hn & ->)].
    + assert (Hnil : Spec.payloadsOf false rest = [])
        by (apply length_zero_nil; lia).
      specialize (IH valid1 valid2 acc1 (acc2 ++ [File.dataURL file])%list
                    (Spec.completes (List.length valid2)
                       (acc2 ++ [File.dataURL file]) s)).
      cbv zeta in IH. rewrite Hnil in *.
      destruct (contribution_fire _ _ (File.dataURL file) Hn) as (-> & ->).
      destruct (completes_projections (List.length valid2)
                  (acc2 ++ [File.dataURL file]) s) as (Ei & Et).
      rewrite Ei, Et in IH.
      cbn [Spec.contribution Spec.notice app] in IH.
      rewrite !app_nil_r in IH. rewrite <- !app_assoc in IH.
      right.
      destruct IH as [IH | IH];
        [exact H1 | rewrite length_app; cbn [List.length]; lia | |];
        rewrite <- !app_assoc; exact IH.
    + destruct (contribution_step _ _ (Spec.payloadsOf false rest)
                  (File.dataURL file) Hn) as (-> & ->).
      apply IH; [exact H1 | rewrite length_app; cbn [List.length]; lia].
Qed.

Lemma contribution_all (valid reads : list File.t) :
  valid <> [] ->
  Permutation reads valid ->
  Spec.contribution (List.length valid) [] (map File.dataURL reads)
  = map File.dataURL reads
  /\ Spec.notice (List.length valid) [] (map File.dataURL reads)
     = [Spec.uploaded (List.length valid)].
Proof.
  intros Hne Hperm. pose proof (Permutation_length Hperm) as Hlen.
  unfold Spec.contribution, Spec.notice.
  destruct reads as [|r reads].
  - apply Permutation_nil in Hperm. contradiction.
  - cbn [map List.length app]. rewrite length_map.
    cbn [List.length] in Hlen. rewrite Hlen, Nat.eqb_refl. now split.
Qed.

(** X20: two batches do not disturb each other.  When the reads of two
    drops complete interleaved in any way, each conforming file of each
    batch once, the image list becomes the images it had, followed by
    the payloads of the batch that completed first and then those of
    the other, each batch's payloads together and in the order its
    reads completed: nothing is lost, nothing is there twice.  Each
    batch notifies its own success once, in the same order. *)
Theorem overlapping_batches
  (s : State) (valid1 valid2 : list File.t)
  (completed : list (bool * File.t)) :
  valid1 <> [] ->
  valid2 <> [] ->
  Permutation (Spec.readsOf true completed) valid1 ->
  Permutation (Spec.readsOf false completed) valid2 ->
  let s' :=
    snd (readBoth completed
           {| validFiles := valid1; newImages := [] |}
           {| validFiles := valid2; newImages := [] |} s) in
  let p1 := Spec.payloadsOf true completed in
  let p2 := Spec.payloadsOf false completed in
  let u1 := Spec.uploaded (List.length valid1) in
  let u2 := Spec.uploaded (List.length valid2) in
  ((uploadedImages s' = (uploadedImages s ++ p1 ++ p2)%list
    /\ toasts s' = (toasts s ++ [u1; u2])%list)
   \/ (uploadedImages s' = (uploadedImages s ++ p2 ++ p1)%list
       /\ toasts s' = (toasts s ++ [u2; u1])%list))
  /\ Permutation p1 (map File.dataURL valid1)
  /\ Permutation p2 (map File.dataURL valid2).
Proof.
  intros Hne1 Hne2 Hp1 Hp2 s' p1 p2 u1 u2. subst s' p1 p2 u1 u2.
  split; [|split; unfold Spec.payloadsOf; now apply Permutation_map].
  pose proof (readBoth_spec completed valid1 valid2 [] [] s) as H.
  cbv zeta in H.
  destruct (contribution_all valid1 _ Hne1 Hp1) as (E1 & E2).
  destruct (contribution_all valid2 _ Hne2 Hp2) as (E3 & E4).
  unfold Spec.payloadsOf in *. rewrite E1, E2, E3, E4 in H.
  apply H.
  - rewrite length_map, (Permutation_length Hp1). simpl. lia.
  - rewrite length_map, (Permutation_length Hp2). simpl. lia.
Qed.

(** Two batches of two and one files; the single read of the second
    batch completes between the two reads of the first, so its image
    comes first. *)
Lemma overlapping_batches_witness :
  let a := {| File.name := "a.png"; File.size := 1024;
              File.dataURL := "data:a" |} in
  let b := {| File.name := "b.png"; File.size := 2048;
              File.dataURL := "data:b" |} in
  let c := {| File.name := "c.png"; File.size := 4096;
              File.dataURL := "data:c" |} in
  uploadedImages
    (snd (readBoth [(true, b); (false, c); (true, a)]
            {| validFiles := [a; b]; newImages := [] |}
            {| validFiles := [c]; newImages := [] |}
            (setUploadedImages ["data:old"] initial)))
  = ["data:old"; "data:c"; "data:b"; "data:a"].
Proof.
  intros a b c.
  pose proof (overlapping_batches (setUploadedImages ["data:old"] initial)
                [a; b] [c] [(true, b); (false, c); (true, a)]) as H.
  cbv zeta in H.
  destruct H as ([(H & _) | (H & _)] & _).
  - discriminate.
  - discriminate.
  - apply perm_swap.
  - apply Permutation_refl.
  - exfalso. vm_compute in H. discriminate H.
  - exact H.
Defined.

End Overlap.

(* ================================================================= *)
(** ** Years that are not numbers *)

Section YearMore.
Import Schema.

Lemma parseInt_no_digit (c : ascii) (r : string) :
  JS.isWhiteSpace c = false ->
  c <> "+"%char ->
  c <> "-"%char ->
  Spec.isDecimalDigit c = false ->
  JS.parseInt (String c r) = None.
Proof.
  intros Hw Hp Hm Hd.
  destruct c as [[|] [|] [|] [|] [|] [|] [|] [|]];
    try (vm_compute in Hd; discriminate Hd);
    try (vm_compute in Hw; discriminate Hw);
    try reflexivity; congruence.
Qed.

(** X21: a year that [parseInt] cannot read is rejected.  The empty
    string, and every string whose first character is neither white
    space, a sign nor a digit, gets "Valid year required", whatever the
    current year. *)
Theorem year_needs_leading_digit (currentYear : Z) (val : string) :
  match val with
  | EmptyString => True
  | String c _ =>
      JS.isWhiteSpace c = false /\ c <> "+"%char /\ c <> "-"%char
      /\ Spec.isDecimalDigit c = false
  end ->
  yearSchema currentYear val = Some (Message "Valid year required")
  /\ forall d : Draft.t,
       errorOf Field.year
         (validate currentYear (Draft.setValue Field.year val d))
       = Some (Message "Valid year required").
Proof.
  intros H.
  assert (Hy : yearSchema currentYear val
               = Some (Message "Valid year required")).
  { apply yearSchema_rejects. unfold yearRefinement.
    destruct val as [|c r]; [reflexivity|].
    destruct H as (Hw & Hp & Hm & Hd).
    now rewrite parseInt_no_digit. }
  split; [exact Hy|].
  intros d. rewrite errorOf_year. exact Hy.
Qed.

Lemma year_needs_leading_digit_witness :
  yearSchema 2025 "MMXX" = Some (Message "Valid year required").
Proof.
  refine (proj1 (year_needs_leading_digit 2025 "MMXX" _)).
  repeat split; discriminate.
Defined.

End YearMore.
